(** * Dependency-version reconciliation of [src/api/consumer/lib/import.js]

    A shallow embedding of [getSemverType], [compatibleWith] and
    [warnForPackageDependencies], together with the fragments of the
    JavaScript runtime (property lookup, truthiness, [parseInt],
    exceptions) and of the ramda helpers they rely on.

    The [semver] package is an external dependency of the repository.  It is
    taken as a parameter (record [semver_api]); a reference instance for a
    fragment of the semver grammar is given in [Module SemverRef] and is used
    to run the code on concrete inputs. *)

From Stdlib Require Import ZArith Ascii String List DecimalString.
From stdpp Require Import base option strings gmap.

Local Open Scope string_scope.
Local Open Scope list_scope.

(** ** JavaScript values, truthiness and exceptions *)

(** The values that flow through the code.  Strings are sequences of code
    units; [Builtin] stands for the functions and objects a plain object
    inherits from [Object.prototype]. *)
Inductive value : Type :=
  | Undefined
  | Null
  | Str (s : string)
  | Builtin.

(** ToBoolean: [undefined], [null] and the empty string are falsy. *)
Definition truthy (v : value) : bool :=
  match v with
  | Undefined | Null => false
  | Str s => negb (String.eqb s "")
  | Builtin => true
  end.

Inductive exn : Type :=
  | Error (msg : string)
  | TypeError (msg : string).

Inductive Result (A : Type) : Type :=
  | Ok (a : A)
  | Throw (e : exn).
Arguments Ok {A} a.
Arguments Throw {A} e.

(** Sequencing: an exception aborts what follows. *)
Definition bind {A B : Type} (m : Result A) (k : A -> Result B) : Result B :=
  match m with
  | Ok a => k a
  | Throw e => Throw e
  end.

Notation "'let!' x ':=' m 'in' k" := (bind m (fun x => k))
  (at level 10, x name, m at level 100, k at level 200).

(** [try { body } catch (e) { handler }] *)
Definition try_catch {A : Type} (body : Result A) (handler : A) : A :=
  match body with
  | Ok a => a
  | Throw _ => handler
  end.

(** A JavaScript number as produced by [parseInt]. *)
Inductive number : Type :=
  | NaN
  | Num (n : Z).

(** [x === y] on numbers: [NaN] is not equal to itself. *)
Definition strict_eq (x y : number) : bool :=
  match x, y with
  | Num a, Num b => Z.eqb a b
  | _, _ => false
  end.

(** *** [parseInt(_, 10)] *)

Definition is_whitespace (c : ascii) : bool :=
  let n := nat_of_ascii c in
  (Nat.eqb n 9 || Nat.eqb n 10 || Nat.eqb n 11 || Nat.eqb n 12
   || Nat.eqb n 13 || Nat.eqb n 32 || Nat.eqb n 160)%bool.

Definition digit_of (c : ascii) : option Z :=
  let n := nat_of_ascii c in
  if (Nat.leb 48 n && Nat.leb n 57)%bool then Some (Z.of_nat (n - 48)) else None.

Fixpoint trim_start (s : string) : string :=
  match s with
  | String c s' => if is_whitespace c then trim_start s' else s
  | EmptyString => EmptyString
  end.

(** The longest prefix of decimal digits, read as a number; [None] when the
    string does not start with a digit. *)
Fixpoint digits_prefix (acc : option Z) (s : string) : option Z :=
  match s with
  | String c s' =>
      match digit_of c with
      | Some d => digits_prefix (Some (10 * default 0%Z acc + d)%Z) s'
      | None => acc
      end
  | EmptyString => acc
  end.

Definition parseInt_string (s : string) : number :=
  let s1 := trim_start s in
  let '(sign, s2) :=
    match s1 with
    | String "-"%char r => ((-1)%Z, r)
    | String "+"%char r => (1%Z, r)
    | _ => (1%Z, s1)
    end in
  match digits_prefix None s2 with
  | Some n => Num (sign * n)
  | None => NaN
  end.

(** The string forms of [undefined], of [null] and of the members of
    [Object.prototype] start with a letter or a bracket. *)
Definition parseInt (v : value) : number :=
  match v with
  | Str s => parseInt_string s
  | Undefined | Null | Builtin => NaN
  end.

(** [v.startsWith(p)]: a [TypeError] when [v] has no such method. *)
Definition startsWith (v : value) (p : string) : Result bool :=
  match v with
  | Str s => Ok (String.prefix p s)
  | Undefined | Null => Throw (TypeError "Cannot read property 'startsWith'")
  | Builtin => Throw (TypeError "startsWith is not a function")
  end.

(** [v[i]]: the code unit at index [i] as a one-character string. *)
Definition index (v : value) (i : nat) : Result value :=
  match v with
  | Str s =>
      match String.get i s with
      | Some c => Ok (Str (String c EmptyString))
      | None => Ok Undefined
      end
  | Builtin => Ok Undefined
  | Undefined | Null => Throw (TypeError "Cannot read property of undefined")
  end.

(** ** Objects *)

(** The names every plain object inherits from [Object.prototype]. *)
Definition inherited : list string :=
  [ "constructor"; "hasOwnProperty"; "isPrototypeOf"; "propertyIsEnumerable";
    "toLocaleString"; "toString"; "valueOf"; "__proto__";
    "__defineGetter__"; "__defineSetter__";
    "__lookupGetter__"; "__lookupSetter__" ].

(** [o[k]] on a plain object whose own properties are [o]: the own property
    if there is one, else what the prototype provides. *)
Definition get (o : gmap string value) (k : string) : value :=
  match o !! k with
  | Some v => v
  | None => if bool_decide (k ∈ inherited) then Builtin else Undefined
  end.

(** An object literal, own properties in key order. *)
Definition literal : Type := list (string * value).

Definition own (a : literal) : gmap string value := list_to_map a.

(** [R.keys] and [R.head]; [None] is [undefined]. *)
Definition keys (a : literal) : list string := map fst a.

Definition key (a : literal) : option string := head (keys a).

(** ToPropertyKey of the result of [key]. *)
Definition property_key (k : option string) : string :=
  match k with
  | Some s => s
  | None => "undefined"
  end.

(** [Object.assign({}, l, r)] for string and [undefined] values: [r] wins,
    and an assignment to ["__proto__"] of such a value reaches the setter of
    the prototype, which ignores it. *)
Definition assign (l r : gmap string value) : gmap string value :=
  delete "__proto__" (r ∪ l).

(** [R.merge] *)
Definition merge (l r : gmap string value) : gmap string value := assign l r.

(** [R.mergeAll] *)
Definition mergeAll (os : list (gmap string value)) : gmap string value :=
  fold_left assign os ∅.

(** ** The interface of the [semver] package *)

(** [semver.valid] and [semver.validRange] return the normalised string or
    [null]; [semver.eq] and [semver.satisfies] may raise a [TypeError]. *)
Record semver_api : Type := {
  sv_valid : string -> option string;
  sv_validRange : string -> option string;
  sv_eq : string -> string -> Result bool;
  sv_satisfies : string -> string -> Result bool
}.

(** What the code relies on: the comparison of two valid versions and the
    test of a valid version against any range do not raise. *)
Definition semver_contract (sv : semver_api) : Prop :=
  (forall x y r1 r2, sv_valid sv x = Some r1 -> sv_valid sv y = Some r2 ->
     exists c, sv_eq sv x y = Ok c) /\
  (forall x y r1, sv_valid sv x = Some r1 ->
     exists c, sv_satisfies sv x y = Ok c).

Inductive SemverType : Type :=
  | V
  | R.

(** ** Components, warnings and the file system *)

Record Component : Type := {
  id : string;
  (** [None] when the property is missing *)
  packageDependencies : option (list (string * string))
}.

Record Warnings : Type := {
  notInPackageJson : list literal;
  notInNodeModules : list literal;
  notInBoth : list literal
}.

(** The fields of a parsed [package.json] that the code reads; [None] is
    [undefined]. *)
Record PackageJson : Type := {
  name : option string;
  version : option string;
  dependencies : option (gmap string value);
  devDependencies : option (gmap string value)
}.

(** What [JSON.parse] can return: [null], or a value with properties. *)
Inductive json : Type :=
  | JNull
  | JObject (pj : PackageJson).

(** [{}] *)
Definition empty_json : json :=
  JObject {| name := None; version := None;
             dependencies := None; devDependencies := None |}.

Record FileSystem : Type := {
  readJSONSync : string -> Result json;
  glob_sync : string -> list string
}.

(** [path.join] *)
Definition path_join (parts : list string) : string :=
  String.concat "/" parts.

(** [Array.prototype.forEach] and [R.forEachObjIndexed] with a callback
    that updates the state [S] and may raise. *)
Fixpoint forEach {A S : Type} (fn : A -> S -> Result S) (l : list A) (s : S)
  : Result S :=
  match l with
  | [] => Ok s
  | x :: l' => let! s' := fn x s in forEach fn l' s'
  end.

(** [Array.prototype.map] with a callback that may raise. *)
Fixpoint mapM {A B : Type} (fn : A -> Result B) (l : list A) : Result (list B) :=
  match l with
  | [] => Ok []
  | x :: l' => let! y := fn x in let! ys := mapM fn l' in Ok (y :: ys)
  end.

(** [o.p] on a parsed JSON value: a [TypeError] on [null]. *)
Definition field {A : Type} (p : PackageJson -> A) (o : json) : Result A :=
  match o with
  | JObject pj => Ok (p pj)
  | JNull => Throw (TypeError "Cannot read property of null")
  end.

(** [x || {}] *)
Definition or_empty (x : option (gmap string value)) : gmap string value :=
  match x with
  | Some o => o
  | None => ∅
  end.

Definition push (l : list literal) (x : literal) : list literal := l ++ [x].

Section ImportLib.

Variable semver : semver_api.

(** The library on arbitrary values: anything but a string is rejected,
    by [null] or by a [TypeError]. *)
Definition semver_valid (v : value) : value :=
  match v with
  | Str s => match sv_valid semver s with Some r => Str r | None => Null end
  | _ => Null
  end.

Definition semver_validRange (v : value) : value :=
  match v with
  | Str s => match sv_validRange semver s with Some r => Str r | None => Null end
  | _ => Null
  end.

Definition semver_eq (x y : value) : Result bool :=
  match x, y with
  | Str s, Str t => sv_eq semver s t
  | _, _ => Throw (TypeError "Invalid Version")
  end.

Definition semver_satisfies (x y : value) : Result bool :=
  match x, y with
  | Str s, Str t => sv_satisfies semver s t
  | _, _ => Throw (TypeError "Invalid Version")
  end.

Definition getSemverType (str : value) : option SemverType :=
  if truthy (semver_valid str) then Some V
  else if truthy (semver_validRange str) then Some R
  else None.

Definition compatibleWith (a : literal) (b : gmap string value) : Result bool :=
  let depName := property_key (key a) in
  if negb (truthy (get b depName)) then Ok false
  else
    let bVersion := get b depName in
    let aVersion := get (own a) depName in
    let aType := getSemverType aVersion in
    let bType := getSemverType bVersion in
    match aType, bType with
    | None, _ | _, None => Ok false
    | Some V, Some V => semver_eq aVersion bVersion
    | Some V, Some R => semver_satisfies aVersion bVersion
    | Some R, Some V => semver_satisfies bVersion aVersion
    | Some R, Some R =>
        let! sa := startsWith aVersion "^" in
        let! sb := (if sa then startsWith bVersion "^" else Ok false) in
        if sb
        then
          let! ca := index aVersion 1 in
          let aMajorVersion := parseInt ca in
          let! cb := index bVersion 1 in
          let bMajorVersion := parseInt cb in
          if strict_eq aMajorVersion bMajorVersion then Ok true else Ok false
        else Ok false
    end.

Section Warn.

Variable fs : FileSystem.

Definition getPackageJson (dir : string) : json :=
  try_catch (readJSONSync fs (path_join [dir; "package.json"])) empty_json.

(** The key of the computed property is the string form of [pj.name]. *)
Definition getNameAndVersion (pj : json) : Result (gmap string value) :=
  let! n := field name pj in
  let! v := field version pj in
  Ok {[ property_key n := match v with Some s => Str s | None => Undefined end ]}.

Definition packageJsonDependencies_of (projectDir : string)
  : Result (gmap string value) :=
  let packageJson := getPackageJson projectDir in
  let! d := field dependencies packageJson in
  let! dd := field devDependencies packageJson in
  Ok (merge (or_empty d) (or_empty dd)).

Definition nodeModules_of (projectDir : string) : Result (gmap string value) :=
  let! os := mapM (fun p => getNameAndVersion (getPackageJson p))
                (glob_sync fs (path_join [projectDir; "node_modules"; "*"])) in
  Ok (mergeAll os).

End Warn.

Definition packageDep (packageDepName packageDepVersion : string) : literal :=
  [(packageDepName, Str packageDepVersion)].

Definition basicMessage (packageDepName packageDepVersion depId : string)
  : string :=
  "the npm package { " ++ packageDepName ++ ":" ++ packageDepVersion
  ++ " } is a package dependency of " ++ depId.

(** The callback of [R.forEachObjIndexed] for the component [dep]. *)
Definition warnOne (packageJsonDependencies nodeModules : gmap string value)
    (dep : Component) (entry : string * string) (warnings : Warnings)
  : Result Warnings :=
  let '(packageDepName, packageDepVersion) := entry in
  let packageDep := packageDep packageDepName packageDepVersion in
  let! compatibleWithPackgeJson := compatibleWith packageDep packageJsonDependencies in
  let! compatibleWithNodeModules := compatibleWith packageDep nodeModules in
  let _ := basicMessage packageDepName packageDepVersion (id dep) in
  let w1 :=
    if (negb compatibleWithPackgeJson && negb compatibleWithNodeModules)%bool
    then {| notInPackageJson := notInPackageJson warnings;
            notInNodeModules := notInNodeModules warnings;
            notInBoth := push (notInBoth warnings) packageDep |}
    else warnings in
  let w2 :=
    if (negb compatibleWithPackgeJson && compatibleWithNodeModules)%bool
    then {| notInPackageJson := push (notInPackageJson w1) packageDep;
            notInNodeModules := notInNodeModules w1;
            notInBoth := notInBoth w1 |}
    else w1 in
  let w3 :=
    if (compatibleWithPackgeJson && negb compatibleWithNodeModules)%bool
    then {| notInPackageJson := notInPackageJson w2;
            notInNodeModules := push (notInNodeModules w2) packageDep;
            notInBoth := notInBoth w2 |}
    else w2 in
  Ok w3.

(** The callback of [dependencies.forEach]. *)
Definition warnComponent (packageJsonDependencies nodeModules : gmap string value)
    (dep : Component) (warnings : Warnings) : Result Warnings :=
  match packageDependencies dep with
  | None => Ok warnings
  | Some nil => Ok warnings
  | Some deps =>
      forEach (warnOne packageJsonDependencies nodeModules dep) deps warnings
  end.

Definition no_warnings : Warnings :=
  {| notInPackageJson := []; notInNodeModules := []; notInBoth := [] |}.

(** The loop of [warnForPackageDependencies] over the two sources. *)
Definition reconcile (dependencies : list Component)
    (packageJsonDependencies nodeModules : gmap string value)
  : Result Warnings :=
  forEach (warnComponent packageJsonDependencies nodeModules)
    dependencies no_warnings.

Definition warnForPackageDependencies (fs : FileSystem)
    (dependencies : list Component) (projectDir : string) : Result Warnings :=
  let! packageJsonDependencies := packageJsonDependencies_of fs projectDir in
  let! nodeModules := nodeModules_of fs projectDir in
  reconcile dependencies packageJsonDependencies nodeModules.

End ImportLib.

(** ** A reference instance of the [semver] interface

    The behaviour of node-semver 5.x on a fragment of its grammar:
    versions [v?MAJOR.MINOR.PATCH] without pre-release or build part, and
    ranges that are empty, a star, a hyphen range of two such versions, or
    comparators ([x.y.z], [=], [>], [>=], [<], [<=], caret, tilde)
    separated by single spaces.  A string outside the fragment is rejected
    the way the library rejects a malformed one. *)
Module SemverRef.

Definition MAX_LENGTH : nat := 256.
Definition MAX_SAFE_INTEGER : N := 9007199254740991.

Fixpoint split_on (sep : ascii) (s : string) : list string :=
  match s with
  | EmptyString => [EmptyString]
  | String c s' =>
      if Ascii.eqb c sep then EmptyString :: split_on sep s'
      else
        match split_on sep s' with
        | w :: ws => String c w :: ws
        | [] => [String c EmptyString]
        end
  end.

Definition digit_N (c : ascii) : option N :=
  let n := N_of_ascii c in
  if (N.leb 48 n && N.leb n 57)%bool then Some (n - 48)%N else None.

Fixpoint read_digits (acc : N) (s : string) : option N :=
  match s with
  | EmptyString => Some acc
  | String c s' =>
      match digit_N c with
      | Some d => read_digits (10 * acc + d)%N s'
      | None => None
      end
  end.

(** A numeric identifier: [0], or digits without a leading zero. *)
Definition parse_num (s : string) : option N :=
  match s with
  | EmptyString => None
  | String "0"%char (String _ _) => None
  | _ =>
      match read_digits 0%N s with
      | Some n => if N.leb n MAX_SAFE_INTEGER then Some n else None
      | None => None
      end
  end.

Record version : Type := { major : N; minor : N; patch : N }.

Definition parse_plain (s : string) : option version :=
  match split_on "."%char s with
  | [a; b; c] =>
      match parse_num a, parse_num b, parse_num c with
      | Some x, Some y, Some z => Some {| major := x; minor := y; patch := z |}
      | _, _, _ => None
      end
  | _ => None
  end.

Definition strip_v (s : string) : string :=
  match s with
  | String "v"%char s' => s'
  | _ => s
  end.

Definition parse (s : string) : option version :=
  if Nat.ltb MAX_LENGTH (String.length s) then None
  else parse_plain (strip_v s).

Definition show_N (n : N) : string := NilEmpty.string_of_uint (N.to_uint n).

Definition format (v : version) : string :=
  show_N (major v) ++ "." ++ show_N (minor v) ++ "." ++ show_N (patch v).

Definition compare (x y : version) : comparison :=
  match N.compare (major x) (major y) with
  | Eq =>
      match N.compare (minor x) (minor y) with
      | Eq => N.compare (patch x) (patch y)
      | c => c
      end
  | c => c
  end.

Inductive operator : Type := OpEq | OpGt | OpGe | OpLt | OpLe.

Definition comparator : Type := (operator * version)%type.

Definition test (v : version) (c : comparator) : bool :=
  match fst c, compare v (snd c) with
  | OpEq, Eq => true
  | OpGt, Gt => true
  | OpGe, (Gt | Eq) => true
  | OpLt, Lt => true
  | OpLe, (Lt | Eq) => true
  | _, _ => false
  end.

Definition caret (v : version) : list comparator :=
  let upper :=
    if N.eqb (major v) 0
    then if N.eqb (minor v) 0
         then {| major := 0; minor := 0; patch := patch v + 1 |}
         else {| major := 0; minor := minor v + 1; patch := 0 |}
    else {| major := major v + 1; minor := 0; patch := 0 |} in
  [(OpGe, v); (OpLt, upper)].

Definition tilde (v : version) : list comparator :=
  [(OpGe, v);
   (OpLt, {| major := major v; minor := minor v + 1; patch := 0 |})].

Definition with_version (f : version -> list comparator) (s : string)
  : option (list comparator) :=
  match parse_plain (strip_v s) with
  | Some v => Some (f v)
  | None => None
  end.

Definition parse_comparator (s : string) : option (list comparator) :=
  match s with
  | String "^"%char r => with_version caret r
  | String "~"%char r => with_version tilde r
  | String ">"%char (String "="%char r) => with_version (fun v => [(OpGe, v)]) r
  | String "<"%char (String "="%char r) => with_version (fun v => [(OpLe, v)]) r
  | String ">"%char r => with_version (fun v => [(OpGt, v)]) r
  | String "<"%char r => with_version (fun v => [(OpLt, v)]) r
  | String "="%char r => with_version (fun v => [(OpEq, v)]) r
  | _ => with_version (fun v => [(OpEq, v)]) s
  end.

Fixpoint parse_comparators (ws : list string) : option (list comparator) :=
  match ws with
  | [] => Some []
  | w :: ws' =>
      match parse_comparator w, parse_comparators ws' with
      | Some cs, Some cs' => Some (cs ++ cs')
      | _, _ => None
      end
  end.

(** The comparators a range stands for; the empty list accepts everything. *)
Definition parse_range (s : string) : option (list comparator) :=
  if (String.eqb s "" || String.eqb s "*")%bool then Some []
  else
    match split_on " "%char s with
    | [lo; "-"; hi] =>
        match parse_plain (strip_v lo), parse_plain (strip_v hi) with
        | Some x, Some y => Some [(OpGe, x); (OpLe, y)]
        | _, _ => None
        end
    | ws => parse_comparators ws
    end.

Definition show_operator (o : operator) : string :=
  match o with
  | OpEq => ""
  | OpGt => ">"
  | OpGe => ">="
  | OpLt => "<"
  | OpLe => "<="
  end.

Definition format_range (cs : list comparator) : string :=
  match cs with
  | [] => "*"
  | _ => String.concat " " (map (fun c => (show_operator (fst c) ++ format (snd c))%string) cs)
  end.

Definition valid (s : string) : option string :=
  match parse s with
  | Some v => Some (format v)
  | None => None
  end.

Definition validRange (s : string) : option string :=
  match parse_range s with
  | Some cs => Some (format_range cs)
  | None => None
  end.

Definition eq (x y : string) : Result bool :=
  match parse x, parse y with
  | Some v, Some w =>
      Ok (match compare v w with Eq => true | _ => false end)
  | _, _ => Throw (TypeError "Invalid Version")
  end.

Definition satisfies (x range : string) : Result bool :=
  match parse_range range with
  | None => Ok false
  | Some cs =>
      match parse x with
      | Some v => Ok (forallb (test v) cs)
      | None => Throw (TypeError "Invalid Version")
      end
  end.

Definition api : semver_api :=
  {| sv_valid := valid; sv_validRange := validRange;
     sv_eq := eq; sv_satisfies := satisfies |}.

End SemverRef.

(** ** Vocabulary of the specification *)

Definition is_digit (c : ascii) : bool :=
  match digit_of c with
  | Some _ => true
  | None => false
  end.

(** The digit that immediately follows a leading caret, if there is one. *)
Definition leading_major_digit (s : string) : option ascii :=
  match s with
  | String c (String d _) =>
      if (Ascii.eqb c "^" && is_digit d)%bool then Some d else None
  | _ => None
  end.

(** Both specifiers are caret-prefixed and show the same leading digit. *)
Definition caret_heuristic (x y : string) : bool :=
  match leading_major_digit x, leading_major_digit y with
  | Some c, Some d => Ascii.eqb c d
  | _, _ => false
  end.

(** The major version a caret specifier denotes: all the digits between the
    caret and the first dot. *)
Definition major_number (s : string) : number :=
  match s with
  | String "^"%char r => parseInt_string r
  | _ => NaN
  end.

(** Every declared package dependency, components first, then the
    dependencies of each component, in iteration order. *)
Definition declared (cs : list Component) : list (string * string) :=
  flat_map (fun c => default [] (packageDependencies c)) cs.

Definition entry_literal (e : string * string) : literal :=
  packageDep (fst e) (snd e).

Definition entries (w : Warnings) : nat :=
  (List.length (notInPackageJson w) + List.length (notInNodeModules w)
   + List.length (notInBoth w))%nat.

Section Vocabulary.

Variable semver : semver_api.

Definition parses_version (s : string) : Prop :=
  exists r, sv_valid semver s = Some r /\ r <> "".

Definition parses_range (s : string) : Prop :=
  exists r, sv_validRange semver s = Some r /\ r <> "".

(** [isCompatible(name, v, source)], with an exception read as "no". *)
Definition isCompatible (depName v : string) (source : gmap string value) : bool :=
  match compatibleWith semver (packageDep depName v) source with
  | Ok c => c
  | Throw _ => false
  end.

Definition in_neither (pj nm : gmap string value) (e : string * string) : bool :=
  (negb (isCompatible (fst e) (snd e) pj) && negb (isCompatible (fst e) (snd e) nm))%bool.

Definition only_installed (pj nm : gmap string value) (e : string * string) : bool :=
  (negb (isCompatible (fst e) (snd e) pj) && isCompatible (fst e) (snd e) nm)%bool.

Definition only_manifest (pj nm : gmap string value) (e : string * string) : bool :=
  (isCompatible (fst e) (snd e) pj && negb (isCompatible (fst e) (snd e) nm))%bool.

(** The report [w] extended with the warnings the entries [l] call for,
    in the order of [l]. *)
Definition extend (pj nm : gmap string value) (w : Warnings)
    (l : list (string * string)) : Warnings :=
  {| notInPackageJson :=
       notInPackageJson w ++ map entry_literal (List.filter (only_installed pj nm) l);
     notInNodeModules :=
       notInNodeModules w ++ map entry_literal (List.filter (only_manifest pj nm) l);
     notInBoth :=
       notInBoth w ++ map entry_literal (List.filter (in_neither pj nm) l) |}.

End Vocabulary.

(** A file system whose every JSON file holds the literal [null]. *)
Definition null_files : FileSystem :=
  {| readJSONSync := fun _ => Ok JNull;
     glob_sync := fun _ => [] |}.

(** A component with one declared package dependency. *)
Definition lodash : Component :=
  {| id := "utils/pad"; packageDependencies := Some [("lodash", "^4.1.0")] |}.

(** What [getNameAndVersion] makes of an entry without metadata. *)
Definition nameless : gmap string value := {[ "undefined" := Undefined ]}.

(** A source that gives no name a version. *)
Definition versionless (m : gmap string value) : Prop :=
  forall k x, m !! k = Some x -> k = "undefined" /\ x = Undefined.

(** A file system on which every read fails and every listing is empty. *)
Definition no_files : FileSystem :=
  {| readJSONSync := fun _ => Throw (Error "ENOENT");
     glob_sync := fun _ => [] |}.

(** ** The import action

    [importAction] drives collaborators that live outside this file: the
    consumer and its scope and [bit.json], [BitId], the loader, [path] and
    [process].  They are parameters; what a call answers may depend on all
    the calls made before it.  A promise is a computation over the history
    of calls; a rejection and an exception raised inside a [then] callback
    are both [Throw].  Starting the loader and assigning a property of
    [bit.json] are recorded as calls that do not fail. *)

(** A [?bool] and a [?string] argument and their truthiness. *)
Definition flag_truthy (f : option bool) : bool :=
  match f with
  | Some true => true
  | _ => false
  end.

Definition string_truthy (s : option string) : bool :=
  match s with
  | Some x => negb (String.eqb x "")
  | None => false
  end.

Section ImportAction.

(** The type of a parsed bit id. *)
Variable BitId : Type.

(** The calls that reach a collaborator, with their arguments. *)
Inductive event : Type :=
  | EnsureConsumer (dir : string)
  | EnsureScopeDir
  | LoaderStart (msg : string)
  | ImportEnvironment (bitId : string) (verbose : option bool)
  | ImportComponents (bitId : string) (verbose environment : option bool)
  | SetCompilerId (i : string)
  | SetTesterId (i : string)
  | AddDependency (i : BitId)
  | WriteBitJson (bitDir : string).

(** The consumer that [Consumer.ensure] resolves to. *)
Record Consumer : Type := {
  getPath : string;
  scope_name : string;
  scope_ensureDir : list event -> Result unit;
  consumer_import :
    list event -> string -> option bool -> option bool ->
    Result (list Component * list Component);
  consumer_importEnvironment :
    list event -> string -> option bool -> Result (list Component);
  bitJson_addDependency : list event -> BitId -> Result unit;
  bitJson_write : list event -> string -> Result unit
}.

Record Platform : Type := {
  process_cwd : string;
  path_resolve : string -> string;
  Consumer_ensure : list event -> string -> Result Consumer;
  BitId_parse : string -> string -> Result BitId;
  BEFORE_IMPORT_ENVIRONMENT : string;
  (** the files as they are once the history has happened *)
  files : list event -> FileSystem
}.

Definition Promise (A : Type) : Type := list event -> Result A * list event.

Definition resolve {A : Type} (a : A) : Promise A := fun t => (Ok a, t).

Definition reject {A : Type} (e : exn) : Promise A := fun t => (Throw e, t).

Definition and_then {A B : Type} (p : Promise A) (k : A -> Promise B)
  : Promise B :=
  fun t =>
    match p t with
    | (Ok a, t') => k a t'
    | (Throw e, t') => (Throw e, t')
    end.

(** A call of a collaborator: it is answered from the history so far and
    joins the history. *)
Definition call {A : Type} (ev : event) (answer : list event -> Result A)
  : Promise A :=
  fun t => (answer t, t ++ [ev]).

(** A computation of this file run inside a [then] callback. *)
Definition inside {A : Type} (r : list event -> Result A) : Promise A :=
  fun t => (r t, t).

Record ImportArgs : Type := {
  bitId : string;
  save : option bool;
  tester : option bool;
  compiler : option bool;
  verbose : option bool;
  prefix : option string;
  environment : option bool
}.

(** What the promise of [importAction] resolves to. *)
Inductive Imported : Type :=
  | EnvImported (envDependencies : list Component)
  | ComponentsImported (dependencies envDependencies : list Component)
      (warnings : Warnings).

Variable semver : semver_api.
Variable platform : Platform.
Variable args : ImportArgs.

(** [envDependencies[0].id.toString()] *)
Definition first_id (envDependencies : list Component) : Promise string :=
  match envDependencies with
  | e :: _ => resolve (id e)
  | [] => reject (TypeError "Cannot read property 'id' of undefined")
  end.

Definition writeToBitJsonIfNeeded (consumer : Consumer)
    (envDependencies : list Component) : Promise bool :=
  if (flag_truthy (save args) && flag_truthy (compiler args))%bool
  then
    and_then (first_id envDependencies) (fun i =>
    and_then (call (SetCompilerId i) (fun _ => Ok tt)) (fun _ =>
    and_then (call (WriteBitJson (getPath consumer))
                (fun t => bitJson_write consumer t (getPath consumer)))
      (fun _ => resolve true)))
  else if (flag_truthy (save args) && flag_truthy (tester args))%bool
  then
    and_then (first_id envDependencies) (fun i =>
    and_then (call (SetTesterId i) (fun _ => Ok tt)) (fun _ =>
    and_then (call (WriteBitJson (getPath consumer))
                (fun t => bitJson_write consumer t (getPath consumer)))
      (fun _ => resolve true)))
  else resolve true.

Definition importEnvironment (consumer : Consumer) : Promise Imported :=
  and_then (call (LoaderStart (BEFORE_IMPORT_ENVIRONMENT platform))
              (fun _ => Ok tt)) (fun _ =>
  and_then (call (ImportEnvironment (bitId args) (verbose args))
              (fun t => consumer_importEnvironment consumer t
                          (bitId args) (verbose args)))
    (fun envDependencies =>
  and_then (writeToBitJsonIfNeeded consumer envDependencies) (fun _ =>
  resolve (EnvImported envDependencies)))).

Definition performOnDir : string :=
  match prefix args with
  | Some p => if string_truthy (Some p) then path_resolve platform p
              else process_cwd platform
  | None => process_cwd platform
  end.

Definition importAction : Promise Imported :=
  and_then (call (EnsureConsumer performOnDir)
              (fun t => Consumer_ensure platform t performOnDir))
    (fun consumer =>
  and_then (call EnsureScopeDir (scope_ensureDir consumer)) (fun _ =>
  if (flag_truthy (tester args) || flag_truthy (compiler args))%bool
  then importEnvironment consumer
  else
    and_then
      (and_then (call (ImportComponents (bitId args) (verbose args)
                         (environment args))
                   (fun t => consumer_import consumer t (bitId args)
                               (verbose args) (environment args)))
         (fun imported =>
            if flag_truthy (save args)
            then
              and_then (inside (fun _ => BitId_parse platform (bitId args)
                                           (scope_name consumer)))
                (fun parseId =>
              and_then (call (AddDependency parseId)
                          (fun t => bitJson_addDependency consumer t parseId))
                (fun _ =>
              and_then (call (WriteBitJson (getPath consumer))
                          (fun t => bitJson_write consumer t (getPath consumer)))
                (fun _ => resolve imported)))
            else resolve imported))
      (fun imported =>
         and_then (inside (fun t => warnForPackageDependencies semver
                                      (files platform t) (fst imported)
                                      (getPath consumer)))
           (fun warnings =>
              resolve (ComponentsImported (fst imported) (snd imported)
                         warnings))))).

(** The calls that change [bit.json]. *)
Definition touches_bitJson (ev : event) : bool :=
  match ev with
  | SetCompilerId _ | SetTesterId _ | AddDependency _ | WriteBitJson _ => true
  | _ => false
  end.

(** The calls of the environment path. *)
Definition environment_call (ev : event) : bool :=
  match ev with
  | LoaderStart _ | ImportEnvironment _ _ | SetCompilerId _ | SetTesterId _ =>
      true
  | _ => false
  end.

(** The calls of the component path. *)
Definition component_call (ev : event) : bool :=
  match ev with
  | ImportComponents _ _ _ | AddDependency _ => true
  | _ => false
  end.

End ImportAction.

Arguments EnsureConsumer {BitId} dir.
Arguments EnsureScopeDir {BitId}.
Arguments LoaderStart {BitId} msg.
Arguments ImportEnvironment {BitId} bitId verbose.
Arguments ImportComponents {BitId} bitId verbose environment.
Arguments SetCompilerId {BitId} i.
Arguments SetTesterId {BitId} i.
Arguments AddDependency {BitId} i.
Arguments WriteBitJson {BitId} bitDir.
Arguments getPath {BitId} c.
Arguments scope_name {BitId} c.
Arguments scope_ensureDir {BitId} c t.
Arguments consumer_import {BitId} c t bitId verbose environment.
Arguments consumer_importEnvironment {BitId} c t bitId verbose.
Arguments bitJson_addDependency {BitId} c t i.
Arguments bitJson_write {BitId} c t bitDir.
Arguments process_cwd {BitId} p.
Arguments path_resolve {BitId} p dir.
Arguments Consumer_ensure {BitId} p t dir.
Arguments BitId_parse {BitId} p bitId scope.
Arguments BEFORE_IMPORT_ENVIRONMENT {BitId} p.
Arguments files {BitId} p t.
Arguments resolve {BitId A} a t.
Arguments reject {BitId A} e t.
Arguments and_then {BitId A B} p k t.
Arguments call {BitId A} ev answer t.
Arguments inside {BitId A} r t.
Arguments first_id {BitId} envDependencies t.
Arguments writeToBitJsonIfNeeded {BitId} args consumer envDependencies t.
Arguments importEnvironment {BitId} platform args consumer t.
Arguments performOnDir {BitId} platform args.
Arguments importAction {BitId} semver platform args t.
Arguments touches_bitJson {BitId} ev.
Arguments environment_call {BitId} ev.
Arguments component_call {BitId} ev.

(** A consumer and a platform on which every call succeeds: the import
    brings one component, the environment import one environment. *)
Definition sample_consumer : Consumer string :=
  {| getPath := "/project";
     scope_name := "local";
     scope_ensureDir := fun _ => Ok tt;
     consumer_import := fun _ _ _ _ => Ok ([lodash], []);
     consumer_importEnvironment := fun _ _ _ =>
       Ok [{| id := "envs/babel"; packageDependencies := None |}];
     bitJson_addDependency := fun _ _ => Ok tt;
     bitJson_write := fun _ _ => Ok tt |}.

Definition sample_platform : Platform string :=
  {| process_cwd := "/project";
     path_resolve := fun p => String.append "/project/" p;
     Consumer_ensure := fun _ _ => Ok sample_consumer;
     BitId_parse := fun i sc => Ok (String.append sc (String.append "/" i));
     BEFORE_IMPORT_ENVIRONMENT := "importing environment";
     files := fun _ => no_files |}.

(** A platform whose consumer cannot reach the remote scope. *)
Definition offline_consumer : Consumer string :=
  {| getPath := "/project";
     scope_name := "local";
     scope_ensureDir := fun _ => Ok tt;
     consumer_import := fun _ _ _ _ => Throw (Error "ECONNREFUSED");
     consumer_importEnvironment := fun _ _ _ => Throw (Error "ECONNREFUSED");
     bitJson_addDependency := fun _ _ => Ok tt;
     bitJson_write := fun _ _ => Ok tt |}.

Definition offline_platform : Platform string :=
  {| process_cwd := "/project";
     path_resolve := fun p => String.append "/project/" p;
     Consumer_ensure := fun _ _ => Ok offline_consumer;
     BitId_parse := fun i sc => Ok (String.append sc (String.append "/" i));
     BEFORE_IMPORT_ENVIRONMENT := "importing environment";
     files := fun _ => no_files |}.

Definition sample_args (s t c : option bool) : ImportArgs :=
  {| bitId := "utils/pad"; save := s; tester := t; compiler := c;
     verbose := None; prefix := None; environment := None |}.

(** The component [c] under another identifier. *)
Definition with_id (f : string -> string) (c : Component) : Component :=
  {| id := f (id c); packageDependencies := packageDependencies c |}.

(** Two reports put together, bucket by bucket. *)
Definition append_warnings (w1 w2 : Warnings) : Warnings :=
  {| notInPackageJson := notInPackageJson w1 ++ notInPackageJson w2;
     notInNodeModules := notInNodeModules w1 ++ notInNodeModules w2;
     notInBoth := notInBoth w1 ++ notInBoth w2 |}.

(** [pj.version] as a value. *)
Definition version_value (pj : PackageJson) : value :=
  match version pj with
  | Some s => Str s
  | None => Undefined
  end.

(** What one entry of the package store contributes to the installed
    source, once its metadata has been read. *)
Definition store_entry (j : json) : gmap string value :=
  match j with
  | JObject pj => {[ property_key (name pj) := version_value pj ]}
  | JNull => ∅
  end.

(** A package store with two directories that both hold a package named
    [lodash]. *)
Definition sample_store : FileSystem :=
  {| readJSONSync := fun path =>
       if String.eqb path "/project/node_modules/lodash/package.json"
       then Ok (JObject {| name := Some "lodash"; version := Some "3.10.1";
                           dependencies := None; devDependencies := None |})
       else if String.eqb path "/project/node_modules/lodash-es/package.json"
       then Ok (JObject {| name := Some "lodash"; version := Some "4.17.21";
                           dependencies := None; devDependencies := None |})
       else if String.eqb path "/project/package.json"
       then Ok (JObject {| name := Some "app"; version := Some "1.0.0";
                           dependencies := Some {[ "lodash" := Str "^3.0.0" ]};
                           devDependencies := Some {[ "lodash" := Str "^4.0.0" ]} |})
       else Throw (Error "ENOENT");
     glob_sync := fun _ =>
       ["/project/node_modules/lodash"; "/project/node_modules/lodash-es"] |}.

(** * Properties *)

(** ** The JavaScript fragment *)

Lemma truthy_Str s : truthy (Str s) = true <-> s <> "".
Proof.
  simpl. rewrite negb_true_iff. split.
  - intros H ->. discriminate.
  - intros H. apply String.eqb_neq. exact H.
Qed.

(** [parseInt] of a one-character string is its digit, or [NaN]. *)
Lemma parseInt_char (c : ascii) :
  parseInt_string (String c EmptyString)
  = match digit_of c with Some d => Num d | None => NaN end.
Proof.
  destruct c as [[|] [|] [|] [|] [|] [|] [|] [|]]; reflexivity.
Qed.

Lemma digit_of_inj (c d : ascii) (n : Z) :
  digit_of c = Some n -> digit_of d = Some n -> c = d.
Proof.
  unfold digit_of. intros Hc Hd.
  destruct (Nat.leb 48 (nat_of_ascii c) && Nat.leb (nat_of_ascii c) 57)%bool eqn:Ec;
    [|discriminate].
  destruct (Nat.leb 48 (nat_of_ascii d) && Nat.leb (nat_of_ascii d) 57)%bool eqn:Ed;
    [|discriminate].
  apply andb_true_iff in Ec as [Ec1 _]. apply andb_true_iff in Ed as [Ed1 _].
  apply Nat.leb_le in Ec1, Ed1.
  assert (nat_of_ascii c = nat_of_ascii d) as E by (simplify_eq; lia).
  rewrite <- (ascii_nat_embedding c), <- (ascii_nat_embedding d). now rewrite E.
Qed.

Lemma get_own_packageDep n v : get (own (packageDep n v)) n = Str v.
Proof.
  unfold get, own, packageDep. simpl. now rewrite lookup_insert_eq.
Qed.

Lemma key_packageDep n v : property_key (key (packageDep n v)) = n.
Proof. reflexivity. Qed.

(** A missing own property reads as [undefined] or as an inherited member,
    never as a string. *)
Lemma get_missing (o : gmap string value) k :
  o !! k = None -> get o k = Undefined \/ get o k = Builtin.
Proof.
  intros H. unfold get. rewrite H. destruct (bool_decide _); auto.
Qed.

Lemma get_present (o : gmap string value) k x : o !! k = Some x -> get o k = x.
Proof. intros H. unfold get. now rewrite H. Qed.

Lemma forEach_app {A S : Type} (fn : A -> S -> Result S) l1 l2 s :
  forEach fn (l1 ++ l2) s = let! s' := forEach fn l1 s in forEach fn l2 s'.
Proof.
  revert s. induction l1 as [|x l1 IH]; intros s; simpl; [reflexivity|].
  destruct (fn x s); simpl; [apply IH | reflexivity].
Qed.

Section Classifier.

Variable semver : semver_api.

Lemma getSemverType_string t x :
  getSemverType semver x = Some t -> exists s, x = Str s.
Proof.
  destruct x; try discriminate. eauto.
Qed.

Lemma getSemverType_V s :
  getSemverType semver (Str s) = Some V <-> parses_version semver s.
Proof.
  unfold getSemverType, parses_version, semver_valid, semver_validRange.
  destruct (sv_valid semver s) as [r|].
  - destruct (truthy (Str r)) eqn:E.
    + apply truthy_Str in E. split; eauto.
    + assert (r = "") as ->.
      { simpl in E. apply negb_false_iff, String.eqb_eq in E. exact E. }
      split.
      * destruct (sv_validRange semver s) as [q|]; [destruct (truthy (Str q))|];
          discriminate.
      * intros (r & [= <-] & Hr). now destruct Hr.
  - simpl. split.
    + destruct (sv_validRange semver s) as [q|]; [destruct (truthy (Str q))|];
        discriminate.
    + intros (r & Hr & _). discriminate.
Qed.

Lemma getSemverType_R s :
  getSemverType semver (Str s) = Some R
  <-> parses_range semver s /\ ~ parses_version semver s.
Proof.
  rewrite <- getSemverType_V.
  unfold getSemverType, parses_range, semver_validRange.
  destruct (truthy (semver_valid semver (Str s))).
  - split; [discriminate | intros [_ H]; now destruct H].
  - destruct (sv_validRange semver s) as [q|].
    + destruct (truthy (Str q)) eqn:E.
      * apply truthy_Str in E. split; [|reflexivity].
        intros _. split; [eauto | discriminate].
      * assert (q = "") as ->.
        { simpl in E. apply negb_false_iff, String.eqb_eq in E. exact E. }
        split; [discriminate|]. intros [(r & [= <-] & Hr) _]. now destruct Hr.
    + simpl. split; [discriminate|]. intros [(r & Hr & _) _]. discriminate.
Qed.

(** C6. For every string the classifier answers exactly one of ['V'] (exact),
    ['R'] (range) and [null] (invalid): exact when the string parses as a
    version, range when it parses as a range and not as a version (so the
    version test takes precedence over the range grammar), and invalid in
    every other case. *)
Theorem classify_trichotomy (s : string) :
  (getSemverType semver (Str s) = Some V <-> parses_version semver s) /\
  (getSemverType semver (Str s) = Some R
     <-> parses_range semver s /\ ~ parses_version semver s) /\
  (getSemverType semver (Str s) = None
     <-> ~ parses_version semver s /\ ~ parses_range semver s) /\
  (parses_version semver s -> parses_range semver s ->
     getSemverType semver (Str s) = Some V).
Proof.
  pose proof (getSemverType_V s) as HV.
  pose proof (getSemverType_R s) as HR.
  split; [exact HV|]. split; [exact HR|]. clear HR. split; [split|].
  - intros HN. split.
    + intros Hv. apply HV in Hv. congruence.
    + intros Hr.
      unfold getSemverType in HN.
      destruct (truthy (semver_valid semver (Str s))); [discriminate|].
      destruct (truthy (semver_validRange semver (Str s))) eqn:E2; [discriminate|].
      destruct Hr as (r & Hr & Hne). unfold semver_validRange in E2.
      rewrite Hr in E2. apply truthy_Str in Hne. congruence.
  - intros [Hv Hr].
    destruct (getSemverType semver (Str s)) as [[]|] eqn:E; [| |reflexivity].
    + destruct Hv. now apply getSemverType_V.
    + apply getSemverType_R in E as [E _]. now destruct Hr.
  - intros Hv _. now apply HV.
Qed.

End Classifier.

Section Compatibility.

Variable semver : semver_api.

Lemma prefix_caret (x : string) :
  String.prefix "^" x
  = match x with String c _ => Ascii.eqb c "^" | EmptyString => false end.
Proof.
  destruct x as [|c x]; [reflexivity|].
  unfold String.prefix. destruct (ascii_dec "^" c) as [<-|Hc].
  - rewrite Ascii.eqb_refl. now destruct x.
  - symmetry. apply Ascii.eqb_neq. congruence.
Qed.

Lemma caret_heuristic_index1 (x y : string) :
  (let! sa := startsWith (Str x) "^" in
   let! sb := (if sa then startsWith (Str y) "^" else Ok false) in
   if sb
   then
     let! ca := index (Str x) 1 in
     let! cb := index (Str y) 1 in
     if strict_eq (parseInt ca) (parseInt cb) then Ok true else Ok false
   else Ok false)
  = Ok (caret_heuristic x y).
Proof.
  unfold caret_heuristic, leading_major_digit, startsWith, index.
  rewrite !prefix_caret.
  destruct x as [|c x]; [reflexivity|].
  destruct (Ascii.eqb c "^") eqn:Ec; cbn [bind andb].
  2:{ now destruct x. }
  destruct y as [|d y]; cbn [bind].
  { destruct x as [|? ?]; [reflexivity|]. now destruct (is_digit _). }
  destruct (Ascii.eqb d "^") eqn:Ed; cbn [bind andb].
  2:{ destruct x as [|? ?]; [now destruct y|].
      destruct (is_digit _); now destruct y. }
  destruct x as [|c' x], y as [|d' y]; cbn [String.get bind parseInt];
    try reflexivity.
  - rewrite parseInt_char. unfold is_digit. now destruct (digit_of c').
  - rewrite !parseInt_char. unfold is_digit.
    destruct (digit_of c') as [n|] eqn:En, (digit_of d') as [m|] eqn:Em;
      cbn [strict_eq]; try reflexivity.
    destruct (Z.eqb_spec n m) as [->|Hnm].
    + rewrite (digit_of_inj _ _ _ En Em). now rewrite Ascii.eqb_refl.
    + destruct (Ascii.eqb_spec c' d') as [->|]; [congruence | reflexivity].
Qed.

(** On two ranges the answer is the caret heuristic. *)
Lemma compatibleWith_ranges n a bv (b : gmap string value) :
  b !! n = Some (Str bv) ->
  getSemverType semver (Str a) = Some R ->
  getSemverType semver (Str bv) = Some R ->
  compatibleWith semver (packageDep n a) b = Ok (caret_heuristic a bv).
Proof.
  intros Hb Ha Hbv. unfold compatibleWith.
  rewrite key_packageDep, get_own_packageDep, (get_present _ _ _ Hb), Ha, Hbv.
  destruct (truthy (Str bv)) eqn:E; simpl negb; cbv iota.
  - apply caret_heuristic_index1.
  - assert (bv = "") as ->.
    { simpl in E. apply negb_false_iff, String.eqb_eq in E. exact E. }
    unfold caret_heuristic, leading_major_digit.
    destruct a as [|? [|? ?]]; try reflexivity.
    now destruct (_ && _)%bool.
Qed.

Lemma compatibleWith_missing (depName v : string) (b : gmap string value) :
  b !! depName = None ->
  compatibleWith semver (packageDep depName v) b = Ok false.
Proof.
  intros Hb. unfold compatibleWith. rewrite key_packageDep.
  destruct (get_missing _ _ Hb) as [-> | ->]; simpl; [reflexivity|].
  now destruct (getSemverType semver _) as [[]|].
Qed.

(** C4. Whatever the declared specifier, a dependency whose name has no
    entry in the source is not compatible with it. *)
Theorem missing_entry_incompatible (depName v : string) (b : gmap string value) :
  b !! depName = None ->
  compatibleWith semver (packageDep depName v) b = Ok false.
Proof. apply compatibleWith_missing. Qed.

(** C2. When the declared specifier and the entry of the source both
    classify as ranges, the answer is [true] exactly when both begin with a
    caret that is immediately followed by the same digit, and [false] for
    every other pair of ranges. *)
Theorem range_range_caret_only n a bv (b : gmap string value) :
  b !! n = Some (Str bv) ->
  getSemverType semver (Str a) = Some R ->
  getSemverType semver (Str bv) = Some R ->
  (compatibleWith semver (packageDep n a) b = Ok true
   <-> exists d ra rb, is_digit d = true
         /\ a = String "^" (String d ra) /\ bv = String "^" (String d rb)) /\
  (compatibleWith semver (packageDep n a) b = Ok false
   <-> ~ exists d ra rb, is_digit d = true
         /\ a = String "^" (String d ra) /\ bv = String "^" (String d rb)).
Proof.
  intros Hb Ha Hbv. rewrite (compatibleWith_ranges _ _ _ _ Hb Ha Hbv).
  assert (caret_heuristic a bv = true
          <-> exists d ra rb, is_digit d = true
                /\ a = String "^" (String d ra) /\ bv = String "^" (String d rb))
    as Hiff.
  { unfold caret_heuristic, leading_major_digit. split.
    - destruct a as [|c [|d ra]]; try discriminate.
      destruct (Ascii.eqb_spec c "^") as [->|]; [|discriminate]. simpl.
      destruct (is_digit d) eqn:Ed; [|discriminate].
      destruct bv as [|c' [|d' rb]]; try discriminate.
      destruct (Ascii.eqb_spec c' "^") as [->|]; [|discriminate]. simpl.
      destruct (is_digit d'); [|discriminate].
      intros H. apply Ascii.eqb_eq in H as <-. exists d, ra, rb. auto.
    - intros (d & ra & rb & Hd & -> & ->). simpl. rewrite Hd.
      apply Ascii.eqb_refl. }
  split.
  - rewrite <- Hiff. split; congruence.
  - rewrite <- Hiff. destruct (caret_heuristic a bv); split; congruence.
Qed.

End Compatibility.

Section Totality.

Variable semver : semver_api.
Hypothesis contract : semver_contract semver.

Lemma classified_V_valid s :
  getSemverType semver (Str s) = Some V -> exists r, sv_valid semver s = Some r.
Proof.
  intros H. apply getSemverType_V in H as (r & Hr & _). eauto.
Qed.

(** No call of [compatibleWith] raises: the library is only asked about
    strings it has just accepted. *)
Lemma compatibleWith_total (a : literal) (b : gmap string value) :
  exists c, compatibleWith semver a b = Ok c.
Proof.
  destruct contract as [Heq Hsat].
  unfold compatibleWith.
  destruct (negb (truthy (get b (property_key (key a))))); [eauto|].
  destruct (getSemverType semver (get (own a) _)) as [ta|] eqn:Ea; [|eauto].
  destruct (getSemverType semver (get b _)) as [tb|] eqn:Eb;
    [|destruct ta; eauto].
  destruct (getSemverType_string _ _ _ Ea) as [x Hx].
  destruct (getSemverType_string _ _ _ Eb) as [y Hy].
  rewrite Hx, Hy in *.
  destruct ta, tb.
  - destruct (classified_V_valid _ Ea) as [r1 H1].
    destruct (classified_V_valid _ Eb) as [r2 H2].
    exact (Heq _ _ _ _ H1 H2).
  - destruct (classified_V_valid _ Ea) as [r1 H1]. exact (Hsat _ _ _ H1).
  - destruct (classified_V_valid _ Eb) as [r2 H2]. exact (Hsat _ _ _ H2).
  - rewrite caret_heuristic_index1. eauto.
Qed.

Lemma compatibleWith_isCompatible n v (b : gmap string value) :
  compatibleWith semver (packageDep n v) b = Ok (isCompatible semver n v b).
Proof.
  unfold isCompatible.
  destruct (compatibleWith_total (packageDep n v) b) as [c ->]. reflexivity.
Qed.

End Totality.

(** Open [compatibleWith] on a one-entry declaration whose name has the
    entry [Hb] in the source. *)
Ltac open_compatibleWith Hb :=
  unfold compatibleWith;
  rewrite key_packageDep, get_own_packageDep, (get_present _ _ _ Hb).

Section Exact.

Variable semver : semver_api.

Lemma compatibleWith_exact_exact n a bv (b : gmap string value) :
  b !! n = Some (Str bv) -> bv <> "" ->
  getSemverType semver (Str a) = Some V ->
  getSemverType semver (Str bv) = Some V ->
  compatibleWith semver (packageDep n a) b = sv_eq semver a bv.
Proof.
  intros Hb Hne Ha Hbv. open_compatibleWith Hb. rewrite Ha, Hbv.
  apply truthy_Str in Hne. now rewrite Hne.
Qed.

Lemma compatibleWith_exact_range n a bv (b : gmap string value) :
  b !! n = Some (Str bv) -> bv <> "" ->
  getSemverType semver (Str a) = Some V ->
  getSemverType semver (Str bv) = Some R ->
  compatibleWith semver (packageDep n a) b = sv_satisfies semver a bv.
Proof.
  intros Hb Hne Ha Hbv. open_compatibleWith Hb. rewrite Ha, Hbv.
  apply truthy_Str in Hne. now rewrite Hne.
Qed.

Lemma compatibleWith_range_exact n a bv (b : gmap string value) :
  b !! n = Some (Str bv) -> bv <> "" ->
  getSemverType semver (Str a) = Some R ->
  getSemverType semver (Str bv) = Some V ->
  compatibleWith semver (packageDep n a) b = sv_satisfies semver bv a.
Proof.
  intros Hb Hne Ha Hbv. open_compatibleWith Hb. rewrite Ha, Hbv.
  apply truthy_Str in Hne. now rewrite Hne.
Qed.

(** C5. When the name is present in the source and either specifier
    classifies as invalid the answer is [false], whatever the comparison
    functions of the library would do; and under the contract of the library
    no call raises, for any declared specifier and any source. *)
Theorem invalid_specifier_incompatible n v x (b : gmap string value) :
  b !! n = Some x ->
  (getSemverType semver (Str v) = None \/ getSemverType semver x = None ->
   compatibleWith semver (packageDep n v) b = Ok false) /\
  (semver_contract semver ->
   forall (v' : string) (b' : gmap string value),
     exists c, compatibleWith semver (packageDep n v') b' = Ok c).
Proof.
  intros Hb. split.
  - intros H. open_compatibleWith Hb.
    destruct (negb (truthy x)); [reflexivity|].
    destruct H as [-> | ->]; [reflexivity|].
    now destruct (getSemverType semver (Str v)) as [[]|].
  - intros Hc v' b'. now apply compatibleWith_total.
Qed.

End Exact.

(** ** The drift reporter *)

Lemma push_neq (l : list literal) (x : literal) : push l x <> l.
Proof.
  unfold push. intros H. apply (f_equal (@List.length _)) in H.
  rewrite length_app in H. simpl in H. lia.
Qed.

Section Reporter.

Variable semver : semver_api.
Variables pj nm : gmap string value.

(** The two sources are such that no comparison against them raises. *)
Hypothesis pj_total :
  forall n v, exists c, compatibleWith semver (packageDep n v) pj = Ok c.
Hypothesis nm_total :
  forall n v, exists c, compatibleWith semver (packageDep n v) nm = Ok c.

Lemma isCompatible_pj n v :
  compatibleWith semver (packageDep n v) pj = Ok (isCompatible semver n v pj).
Proof. unfold isCompatible. now destruct (pj_total n v) as [c ->]. Qed.

Lemma isCompatible_nm n v :
  compatibleWith semver (packageDep n v) nm = Ok (isCompatible semver n v nm).
Proof. unfold isCompatible. now destruct (nm_total n v) as [c ->]. Qed.

Lemma extend_nil w : extend semver pj nm w [] = w.
Proof. destruct w. unfold extend. simpl. now rewrite !app_nil_r. Qed.

Lemma extend_app w l1 l2 :
  extend semver pj nm (extend semver pj nm w l1) l2
  = extend semver pj nm w (l1 ++ l2).
Proof.
  unfold extend. simpl. now rewrite !List.filter_app, !map_app, !app_assoc.
Qed.

Lemma warnOne_extend dep e w :
  warnOne semver pj nm dep e w = Ok (extend semver pj nm w [e]).
Proof.
  destruct e as [n v]. unfold warnOne.
  rewrite isCompatible_pj, isCompatible_nm. cbn [bind].
  unfold extend, only_installed, only_manifest, in_neither, entry_literal, push.
  cbn [List.filter fst snd].
  destruct (isCompatible semver n v pj), (isCompatible semver n v nm);
    destruct w; simpl; now rewrite ?app_nil_r.
Qed.

Lemma forEach_warnOne dep l w :
  forEach (warnOne semver pj nm dep) l w = Ok (extend semver pj nm w l).
Proof.
  revert w. induction l as [|e l IH]; intros w.
  - simpl. now rewrite extend_nil.
  - simpl. rewrite warnOne_extend. cbn [bind]. rewrite IH.
    now rewrite extend_app.
Qed.

Lemma warnComponent_forEach dep w :
  warnComponent semver pj nm dep w
  = forEach (warnOne semver pj nm dep) (default [] (packageDependencies dep)) w.
Proof.
  unfold warnComponent. now destruct (packageDependencies dep) as [[|e l]|].
Qed.

Lemma forEach_warnComponent cs w :
  forEach (warnComponent semver pj nm) cs w
  = Ok (extend semver pj nm w (declared cs)).
Proof.
  revert w. induction cs as [|c cs IH]; intros w.
  - simpl. now rewrite extend_nil.
  - simpl. rewrite warnComponent_forEach, forEach_warnOne. cbn [bind].
    rewrite IH. now rewrite extend_app.
Qed.

Lemma reconcile_extend cs :
  reconcile semver cs pj nm = Ok (extend semver pj nm no_warnings (declared cs)).
Proof. apply forEach_warnComponent. Qed.

Lemma buckets_exclusive l :
  (List.length (List.filter (only_installed semver pj nm) l)
   + List.length (List.filter (only_manifest semver pj nm) l)
   + List.length (List.filter (in_neither semver pj nm) l) <= List.length l)%nat.
Proof.
  induction l as [|[n v] l IH]; [reflexivity|].
  unfold only_installed, only_manifest, in_neither in *. cbn [List.filter fst snd].
  destruct (isCompatible semver n v pj), (isCompatible semver n v nm);
    simpl; lia.
Qed.

End Reporter.

Section Reconciliation.

Variable semver : semver_api.
Hypothesis contract : semver_contract semver.
Variables pj nm : gmap string value.

Lemma total_pj n v : exists c, compatibleWith semver (packageDep n v) pj = Ok c.
Proof. apply compatibleWith_total, contract. Qed.

Lemma total_nm n v : exists c, compatibleWith semver (packageDep n v) nm = Ok c.
Proof. apply compatibleWith_total, contract. Qed.

Lemma extend_single w n v :
  extend semver pj nm w [(n, v)]
  = {| notInPackageJson :=
         if only_installed semver pj nm (n, v)
         then push (notInPackageJson w) (packageDep n v) else notInPackageJson w;
       notInNodeModules :=
         if only_manifest semver pj nm (n, v)
         then push (notInNodeModules w) (packageDep n v) else notInNodeModules w;
       notInBoth :=
         if in_neither semver pj nm (n, v)
         then push (notInBoth w) (packageDep n v) else notInBoth w |}.
Proof.
  unfold extend, only_installed, only_manifest, in_neither, entry_literal, push.
  cbn [List.filter fst snd].
  destruct (isCompatible semver n v pj), (isCompatible semver n v nm);
    simpl; now rewrite ?app_nil_r.
Qed.

(** C1. Take any component of the input and any of its declared package
    dependencies [(n, v)], and let [w0] and [w1] be the report just before
    and just after the pair is processed.  With [inManifest] and
    [inInstalled] the two compatibility answers, the pair is appended to
    [notInBoth] iff neither holds, to [notInPackageJson] iff only
    [inInstalled] holds, to [notInNodeModules] iff only [inManifest] holds,
    and the report is left as it was iff both hold. *)
Theorem reconcile_buckets (cs1 cs2 : list Component) (c : Component)
    (d1 d2 : list (string * string)) (n v : string) :
  packageDependencies c = Some (d1 ++ (n, v) :: d2) ->
  let inManifest := isCompatible semver n v pj in
  let inInstalled := isCompatible semver n v nm in
  let p := packageDep n v in
  exists w0 w1 : Warnings,
    compatibleWith semver p pj = Ok inManifest /\
    compatibleWith semver p nm = Ok inInstalled /\
    (let! wc := forEach (warnComponent semver pj nm) cs1 no_warnings in
     forEach (warnOne semver pj nm c) d1 wc) = Ok w0 /\
    warnOne semver pj nm c (n, v) w0 = Ok w1 /\
    reconcile semver (cs1 ++ c :: cs2) pj nm
    = (let! w2 := forEach (warnOne semver pj nm c) d2 w1 in
       forEach (warnComponent semver pj nm) cs2 w2) /\
    (notInBoth w1 = push (notInBoth w0) p
     <-> inManifest = false /\ inInstalled = false) /\
    (notInPackageJson w1 = push (notInPackageJson w0) p
     <-> inManifest = false /\ inInstalled = true) /\
    (notInNodeModules w1 = push (notInNodeModules w0) p
     <-> inManifest = true /\ inInstalled = false) /\
    (w1 = w0 <-> inManifest = true /\ inInstalled = true) /\
    (notInBoth w1 = notInBoth w0 \/ notInBoth w1 = push (notInBoth w0) p) /\
    (notInPackageJson w1 = notInPackageJson w0
     \/ notInPackageJson w1 = push (notInPackageJson w0) p) /\
    (notInNodeModules w1 = notInNodeModules w0
     \/ notInNodeModules w1 = push (notInNodeModules w0) p).
Proof.
  intros Hc inManifest inInstalled p.
  exists (extend semver pj nm no_warnings (declared cs1 ++ d1)).
  exists (extend semver pj nm
            (extend semver pj nm no_warnings (declared cs1 ++ d1)) [(n, v)]).
  split; [apply compatibleWith_isCompatible, contract|].
  split; [apply compatibleWith_isCompatible, contract|].
  split.
  { rewrite (forEach_warnComponent semver pj nm total_pj total_nm). cbn [bind].
    rewrite (forEach_warnOne semver pj nm total_pj total_nm).
    now rewrite (extend_app semver pj nm). }
  split; [apply (warnOne_extend semver pj nm total_pj total_nm)|].
  split.
  { rewrite (reconcile_extend semver pj nm total_pj total_nm).
    rewrite (forEach_warnOne semver pj nm total_pj total_nm). cbn [bind].
    rewrite (forEach_warnComponent semver pj nm total_pj total_nm).
    rewrite !(extend_app semver pj nm). do 2 f_equal.
    unfold declared. rewrite flat_map_app. cbn [flat_map]. rewrite Hc.
    unfold default, from_option, Datatypes.id. now rewrite <- !app_assoc. }
  rewrite extend_single.
  set (w0 := extend semver pj nm no_warnings (declared cs1 ++ d1)).
  unfold only_installed, only_manifest, in_neither. cbn [fst snd].
  fold inManifest inInstalled p.
  destruct inManifest, inInstalled; cbn [negb andb notInBoth notInPackageJson
    notInNodeModules];
    repeat match goal with
      | |- _ /\ _ => split
      | |- _ <-> _ => split
      | |- _ \/ _ => first [left; reflexivity | right; reflexivity]
      | |- _ -> _ => intros H
      | H : _ /\ _ |- _ => destruct H
      | H : true = false |- _ => discriminate H
      | H : false = true |- _ => discriminate H
      | H : ?l = push ?l _ |- _ => symmetry in H; destruct (push_neq _ _ H)
      | H : {| notInPackageJson := _ |} = w0 |- _ =>
          first
            [ apply (f_equal notInBoth) in H; cbn in H;
              destruct (push_neq _ _ H)
            | apply (f_equal notInPackageJson) in H; cbn in H;
              destruct (push_neq _ _ H)
            | apply (f_equal notInNodeModules) in H; cbn in H;
              destruct (push_neq _ _ H) ]
      | |- _ = _ => first [reflexivity | now destruct w0]
      end.
Qed.

(** C9. Each bucket of the report lists its entries in the iteration order
    of the input: components in sequence order and, within a component, its
    dependencies in their own order.  Nothing is sorted, so the report is a
    function of the input sequence. *)
Theorem buckets_keep_iteration_order (cs : list Component) :
  exists w : Warnings,
    reconcile semver cs pj nm = Ok w /\
    notInBoth w
    = map entry_literal (List.filter (in_neither semver pj nm) (declared cs)) /\
    notInPackageJson w
    = map entry_literal (List.filter (only_installed semver pj nm) (declared cs)) /\
    notInNodeModules w
    = map entry_literal (List.filter (only_manifest semver pj nm) (declared cs)).
Proof.
  exists (extend semver pj nm no_warnings (declared cs)).
  split; [apply (reconcile_extend semver pj nm total_pj total_nm)|].
  now repeat split.
Qed.

(** C8. Processing one pair appends it to at most one bucket: the report is
    unchanged, or exactly one of the three buckets has the pair appended.
    A pair that is compatible with neither source goes to [notInBoth] only.
    Over a whole run the report holds at most one entry per declared
    pair. *)
Theorem at_most_one_bucket (dep : Component) (n v : string) (w : Warnings)
    (cs : list Component) :
  let p := packageDep n v in
  (exists w' : Warnings,
     warnOne semver pj nm dep (n, v) w = Ok w' /\
     (entries w' <= entries w + 1)%nat /\
     (w' = w
      \/ w' = {| notInPackageJson := notInPackageJson w;
                 notInNodeModules := notInNodeModules w;
                 notInBoth := push (notInBoth w) p |}
      \/ w' = {| notInPackageJson := push (notInPackageJson w) p;
                 notInNodeModules := notInNodeModules w;
                 notInBoth := notInBoth w |}
      \/ w' = {| notInPackageJson := notInPackageJson w;
                 notInNodeModules := push (notInNodeModules w) p;
                 notInBoth := notInBoth w |}) /\
     (isCompatible semver n v pj = false ->
      isCompatible semver n v nm = false ->
      notInBoth w' = push (notInBoth w) p
      /\ notInPackageJson w' = notInPackageJson w
      /\ notInNodeModules w' = notInNodeModules w)) /\
  (exists r : Warnings,
     reconcile semver cs pj nm = Ok r /\
     (entries r <= List.length (declared cs))%nat).
Proof.
  intros p. split.
  - exists (extend semver pj nm w [(n, v)]).
    split; [apply (warnOne_extend semver pj nm total_pj total_nm)|].
    rewrite extend_single.
    unfold only_installed, only_manifest, in_neither, entries, push.
    cbn [fst snd]. fold p.
    destruct (isCompatible semver n v pj), (isCompatible semver n v nm);
      cbn [negb andb notInBoth notInPackageJson notInNodeModules];
      rewrite ?length_app; cbn [List.length].
    + split; [lia|]. split; [left; now destruct w|]. discriminate.
    + split; [lia|]. split; [do 3 right; reflexivity|]. discriminate.
    + split; [lia|]. split; [right; right; left; reflexivity|]. discriminate.
    + split; [lia|]. split; [right; left; reflexivity|]. now intros _ _.
  - exists (extend semver pj nm no_warnings (declared cs)).
    split; [apply (reconcile_extend semver pj nm total_pj total_nm)|].
    unfold entries, extend. cbn [notInBoth notInPackageJson notInNodeModules
      no_warnings app]. rewrite !length_map.
    apply buckets_exclusive.
Qed.

End Reconciliation.

(** ** Building the two sources *)

Lemma merge_empty : merge ∅ ∅ = ∅.
Proof.
  unfold merge, assign. rewrite (left_id_L ∅ (∪)). apply delete_empty.
Qed.

Lemma versionless_get m k : versionless m -> get m k = get ∅ k.
Proof.
  intros Hm. unfold get. rewrite lookup_empty.
  destruct (m !! k) as [x|] eqn:E; [|reflexivity].
  destruct (Hm _ _ E) as [-> ->]. reflexivity.
Qed.

Lemma versionless_assign acc o :
  versionless acc -> versionless o -> versionless (assign acc o).
Proof.
  intros Ha Ho k x. unfold assign. intros H.
  apply lookup_delete_Some in H as [_ H].
  apply lookup_union_Some_raw in H as [H | [_ H]]; eauto.
Qed.

Lemma versionless_mergeAll os :
  Forall versionless os -> versionless (mergeAll os).
Proof.
  unfold mergeAll. assert (versionless ∅) as H0.
  { intros k x H. now rewrite lookup_empty in H. }
  revert H0. generalize (∅ : gmap string value) as acc.
  induction os as [|o os IH]; intros acc Hacc Hos; [exact Hacc|].
  inversion Hos; subst. simpl. apply IH; [|assumption].
  now apply versionless_assign.
Qed.

Lemma versionless_compatibleWith semver a m :
  versionless m -> compatibleWith semver a m = compatibleWith semver a ∅.
Proof.
  intros Hm. unfold compatibleWith. now rewrite (versionless_get m _ Hm).
Qed.

Section Sources.

Variable fs : FileSystem.

Lemma getPackageJson_unreadable dir e :
  readJSONSync fs (path_join [dir; "package.json"]) = Throw e ->
  getPackageJson fs dir = empty_json.
Proof. intros H. unfold getPackageJson. now rewrite H. Qed.

Lemma packageJsonDependencies_unreadable dir e :
  readJSONSync fs (path_join [dir; "package.json"]) = Throw e ->
  packageJsonDependencies_of fs dir = Ok ∅.
Proof.
  intros H. unfold packageJsonDependencies_of.
  rewrite (getPackageJson_unreadable _ _ H). simpl. now rewrite merge_empty.
Qed.

Lemma nodeModules_no_entries dir :
  glob_sync fs (path_join [dir; "node_modules"; "*"]) = [] ->
  nodeModules_of fs dir = Ok ∅.
Proof. intros H. unfold nodeModules_of. now rewrite H. Qed.

Lemma mapM_unreadable (l : list string) :
  (forall p, In p l ->
     exists e, readJSONSync fs (path_join [p; "package.json"]) = Throw e) ->
  mapM (fun p => getNameAndVersion (getPackageJson fs p)) l
  = Ok (map (fun _ => nameless) l).
Proof.
  induction l as [|p l IH]; intros H; [reflexivity|].
  simpl. destruct (H p (or_introl Logic.eq_refl)) as [e He].
  rewrite (getPackageJson_unreadable _ _ He). simpl.
  rewrite IH; [reflexivity|]. intros q Hq. apply H. now right.
Qed.

Lemma nodeModules_unreadable dir :
  (forall p, In p (glob_sync fs (path_join [dir; "node_modules"; "*"])) ->
     exists e, readJSONSync fs (path_join [p; "package.json"]) = Throw e) ->
  exists m, nodeModules_of fs dir = Ok m /\ versionless m.
Proof.
  intros H. unfold nodeModules_of. rewrite (mapM_unreadable _ H). simpl.
  eexists; split; [reflexivity|]. apply versionless_mergeAll.
  apply Forall_forall. intros o Ho. apply list_elem_of_In in Ho.
  apply in_map_iff in Ho as (p & <- & _).
  intros k x Hk. unfold nameless in Hk.
  apply lookup_singleton_Some in Hk as [<- <-]. auto.
Qed.

End Sources.

Section Empty.

Variable semver : semver_api.

Lemma empty_total n v :
  exists c, compatibleWith semver (packageDep n v) ∅ = Ok c.
Proof.
  exists false. apply compatibleWith_missing, lookup_empty.
Qed.

Lemma isCompatible_empty n v : isCompatible semver n v ∅ = false.
Proof.
  unfold isCompatible.
  now rewrite (compatibleWith_missing semver n v ∅ (lookup_empty n)).
Qed.

Lemma filter_empty_sources (l : list (string * string)) :
  List.filter (in_neither semver ∅ ∅) l = l
  /\ List.filter (only_installed semver ∅ ∅) l = []
  /\ List.filter (only_manifest semver ∅ ∅) l = [].
Proof.
  induction l as [|[n v] l (IH1 & IH2 & IH3)]; [auto|].
  unfold in_neither, only_installed, only_manifest in *. cbn [List.filter fst snd].
  rewrite isCompatible_empty. cbn [negb andb]. now rewrite IH1, IH2, IH3.
Qed.

Lemma reconcile_empty_sources (cs : list Component) :
  reconcile semver cs ∅ ∅
  = Ok {| notInPackageJson := [];
          notInNodeModules := [];
          notInBoth := map entry_literal (declared cs) |}.
Proof.
  rewrite (reconcile_extend semver ∅ ∅ empty_total empty_total).
  unfold extend. destruct (filter_empty_sources (declared cs)) as (-> & -> & ->).
  reflexivity.
Qed.

(** C7. A manifest that cannot be read gives the empty source, and so does
    a package store without entries; a store whose entries cannot be read
    gives a source that assigns no version to any name.  None of these
    raises.  The reconciliation loop returns a report for every input, and
    over two empty sources every declared dependency is put in [notInBoth]
    while the other two buckets stay empty. *)
Theorem unreadable_sources_report_everything (fs : FileSystem)
    (cs : list Component) (dir : string) :
  (forall e, readJSONSync fs (path_join [dir; "package.json"]) = Throw e ->
     getPackageJson fs dir = empty_json
     /\ packageJsonDependencies_of fs dir = Ok ∅) /\
  (glob_sync fs (path_join [dir; "node_modules"; "*"]) = [] ->
     nodeModules_of fs dir = Ok ∅) /\
  ((forall p, In p (glob_sync fs (path_join [dir; "node_modules"; "*"])) ->
      exists e, readJSONSync fs (path_join [p; "package.json"]) = Throw e) ->
     exists m, nodeModules_of fs dir = Ok m /\
       forall a, compatibleWith semver a m = compatibleWith semver a ∅) /\
  (semver_contract semver ->
     forall pj nm : gmap string value,
       exists w, reconcile semver cs pj nm = Ok w) /\
  reconcile semver cs ∅ ∅
  = Ok {| notInPackageJson := [];
          notInNodeModules := [];
          notInBoth := map entry_literal (declared cs) |} /\
  (forall e, readJSONSync fs (path_join [dir; "package.json"]) = Throw e ->
     glob_sync fs (path_join [dir; "node_modules"; "*"]) = [] ->
     warnForPackageDependencies semver fs cs dir
     = Ok {| notInPackageJson := [];
             notInNodeModules := [];
             notInBoth := map entry_literal (declared cs) |}).
Proof.
  split; [|split; [|split; [|split; [|split]]]].
  - intros e H. split.
    + exact (getPackageJson_unreadable fs dir e H).
    + exact (packageJsonDependencies_unreadable fs dir e H).
  - apply nodeModules_no_entries.
  - intros H. destruct (nodeModules_unreadable fs dir H) as (m & Hm & Hv).
    exists m. split; [exact Hm|]. intros a.
    now apply versionless_compatibleWith.
  - intros Hc pj nm. eexists.
    apply (reconcile_extend semver pj nm).
    + intros n v. apply compatibleWith_total, Hc.
    + intros n v. apply compatibleWith_total, Hc.
  - apply reconcile_empty_sources.
  - intros e He Hg. unfold warnForPackageDependencies.
    rewrite (packageJsonDependencies_unreadable fs dir e He).
    rewrite (nodeModules_no_entries fs dir Hg). cbn [bind].
    apply reconcile_empty_sources.
Qed.

End Empty.

(** ** The reference instance *)

Lemma ref_contract : semver_contract SemverRef.api.
Proof.
  split.
  - intros x y r1 r2 Hx Hy. simpl in *.
    unfold SemverRef.valid, SemverRef.eq in *.
    destruct (SemverRef.parse x); [|discriminate].
    destruct (SemverRef.parse y); [|discriminate]. eauto.
  - intros x y r1 Hx. simpl in *.
    unfold SemverRef.valid, SemverRef.satisfies in *.
    destruct (SemverRef.parse_range y); [|eauto].
    destruct (SemverRef.parse x); [eauto | discriminate].
Qed.

(** The classifier on the reference instance: a bare version is exact
    although the range grammar accepts it too; the empty string is a range;
    a tag is invalid. *)
Example classify_examples :
  getSemverType SemverRef.api (Str "1.2.3") = Some V /\
  SemverRef.validRange "1.2.3" = Some "1.2.3" /\
  getSemverType SemverRef.api (Str "^4.1.0") = Some R /\
  getSemverType SemverRef.api (Str ">=1.0.0 <2.0.0") = Some R /\
  getSemverType SemverRef.api (Str "1.5.0 - 1.9.0") = Some R /\
  getSemverType SemverRef.api (Str "") = Some R /\
  getSemverType SemverRef.api (Str "latest") = None.
Proof. vm_compute. now repeat split. Qed.

(** The scenarios of the specification, run on the reference instance. *)
Example scenario_notInNodeModules :
  reconcile SemverRef.api [lodash] {[ "lodash" := Str "^4.5.0" ]} ∅
  = Ok {| notInPackageJson := [];
          notInNodeModules := [packageDep "lodash" "^4.1.0"];
          notInBoth := [] |}.
Proof. vm_compute. reflexivity. Qed.

Example scenario_notInPackageJson :
  reconcile SemverRef.api [lodash] ∅ {[ "lodash" := Str "4.17.21" ]}
  = Ok {| notInPackageJson := [packageDep "lodash" "^4.1.0"];
          notInNodeModules := [];
          notInBoth := [] |}.
Proof. vm_compute. reflexivity. Qed.

Example scenario_subset_ranges :
  compatibleWith SemverRef.api (packageDep "lodash" ">=1.0.0 <2.0.0")
    {[ "lodash" := Str "1.5.0 - 1.9.0" ]} = Ok false.
Proof. vm_compute. reflexivity. Qed.

(** Outside the failure policy of [getPackageJson]: a manifest that is
    read without error but holds [null] makes the property access raise. *)
Example null_manifest_raises :
  warnForPackageDependencies SemverRef.api null_files [lodash] "/project"
  = Throw (TypeError "Cannot read property of null").
Proof. reflexivity. Qed.

Section CaretDigit.

Variable semver : semver_api.

(** C10. On two ranges the caret rule looks at the character at index 1
    only: whatever follows that digit is ignored.  So [^10.0.0] is found
    compatible with [^1.0.0] and with [^12.0.0], although the majors 10, 1
    and 12 are different numbers. *)
Theorem caret_rule_reads_one_digit (n : string) :
  getSemverType semver (Str "^10.0.0") = Some R ->
  getSemverType semver (Str "^1.0.0") = Some R ->
  getSemverType semver (Str "^12.0.0") = Some R ->
  compatibleWith semver (packageDep n "^10.0.0") {[ n := Str "^1.0.0" ]}
  = Ok true /\
  compatibleWith semver (packageDep n "^10.0.0") {[ n := Str "^12.0.0" ]}
  = Ok true /\
  major_number "^10.0.0" = Num 10 /\
  major_number "^1.0.0" = Num 1 /\
  major_number "^12.0.0" = Num 12 /\
  (forall (d : ascii) (ra rb : string),
     is_digit d = true ->
     getSemverType semver (Str (String "^" (String d ra))) = Some R ->
     getSemverType semver (Str (String "^" (String d rb))) = Some R ->
     compatibleWith semver (packageDep n (String "^" (String d ra)))
       {[ n := Str (String "^" (String d rb)) ]} = Ok true).
Proof.
  intros H10 H1 H12.
  split; [|split; [|split; [|split; [|split]]]]; try reflexivity.
  - now rewrite (compatibleWith_ranges semver n _ _ _
                   (lookup_singleton_eq n (Str "^1.0.0")) H10 H1).
  - now rewrite (compatibleWith_ranges semver n _ _ _
                   (lookup_singleton_eq n (Str "^12.0.0")) H10 H12).
  - intros d ra rb Hd Ha Hb.
    rewrite (compatibleWith_ranges semver n _ _ _
               (lookup_singleton_eq n _) Ha Hb).
    unfold caret_heuristic, leading_major_digit. rewrite Hd. simpl.
    now rewrite Ascii.eqb_refl.
Qed.

(** An entry of the source that is the empty string is treated like a
    missing one, whatever the declared specifier. *)
Lemma compatibleWith_empty_entry (n a : string) :
  compatibleWith semver (packageDep n a) {[ n := Str "" ]} = Ok false.
Proof.
  unfold compatibleWith.
  rewrite key_packageDep, (get_present _ _ _ (lookup_singleton_eq n (Str ""))).
  reflexivity.
Qed.

End CaretDigit.

(** C3. The exact version [1.0.0] satisfies the range written as the empty
    string, and with the empty string as the declared specifier and [1.0.0]
    in the source the answer is [true]; with [1.0.0] declared and the empty
    string in the source the answer is [false]: the test for a missing entry
    also catches the empty specifier, so the two mixed cases disagree. *)
Theorem empty_range_entry_rejected :
  getSemverType SemverRef.api (Str "1.0.0") = Some V /\
  getSemverType SemverRef.api (Str "") = Some R /\
  sv_satisfies SemverRef.api "1.0.0" "" = Ok true /\
  compatibleWith SemverRef.api (packageDep "lodash" "")
    {[ "lodash" := Str "1.0.0" ]} = Ok true /\
  compatibleWith SemverRef.api (packageDep "lodash" "1.0.0")
    {[ "lodash" := Str "" ]} = Ok false /\
  (forall (semver : semver_api) (n a : string),
     compatibleWith semver (packageDep n a) {[ n := Str "" ]} = Ok false).
Proof.
  split; [|split; [|split; [|split; [|split]]]]; try (vm_compute; reflexivity).
  intros semver n a. apply compatibleWith_empty_entry.
Qed.

(** ** The theorems at concrete inputs *)

Lemma classify_trichotomy_witness :
  parses_version SemverRef.api "1.2.3" /\
  parses_range SemverRef.api "1.2.3" /\
  getSemverType SemverRef.api (Str "1.2.3") = Some V.
Proof.
  assert (parses_version SemverRef.api "1.2.3") as Hv.
  { exists "1.2.3". split; [vm_compute; reflexivity | discriminate]. }
  assert (parses_range SemverRef.api "1.2.3") as Hr.
  { exists "1.2.3". split; [vm_compute; reflexivity | discriminate]. }
  split; [exact Hv|]. split; [exact Hr|].
  destruct (classify_trichotomy SemverRef.api "1.2.3") as (_ & _ & _ & H).
  exact (H Hv Hr).
Defined.

Lemma missing_entry_incompatible_witness :
  ({[ "react" := Str "^16.0.0" ]} : gmap string value) !! "lodash" = None /\
  compatibleWith SemverRef.api (packageDep "lodash" "^4.1.0")
    {[ "react" := Str "^16.0.0" ]} = Ok false.
Proof.
  assert (({[ "react" := Str "^16.0.0" ]} : gmap string value) !! "lodash" = None)
    as H by (vm_compute; reflexivity).
  split; [exact H|].
  exact (missing_entry_incompatible SemverRef.api "lodash" "^4.1.0" _ H).
Defined.

Lemma range_range_caret_only_witness :
  getSemverType SemverRef.api (Str "^2.1.0") = Some R /\
  getSemverType SemverRef.api (Str "^2.9.9") = Some R /\
  compatibleWith SemverRef.api (packageDep "lodash" "^2.1.0")
    {[ "lodash" := Str "^2.9.9" ]} = Ok true.
Proof.
  assert (getSemverType SemverRef.api (Str "^2.1.0") = Some R) as Ha
    by (vm_compute; reflexivity).
  assert (getSemverType SemverRef.api (Str "^2.9.9") = Some R) as Hb
    by (vm_compute; reflexivity).
  split; [exact Ha|]. split; [exact Hb|].
  destruct (range_range_caret_only SemverRef.api "lodash" "^2.1.0" "^2.9.9"
              {[ "lodash" := Str "^2.9.9" ]}
              (lookup_singleton_eq "lodash" (Str "^2.9.9")) Ha Hb) as [[_ H] _].
  apply H. exists "2"%char, ".1.0", ".9.9". now repeat split.
Defined.

Lemma invalid_specifier_incompatible_witness :
  getSemverType SemverRef.api (Str "latest") = None /\
  compatibleWith SemverRef.api (packageDep "lodash" "latest")
    {[ "lodash" := Str "^4.5.0" ]} = Ok false /\
  exists c, compatibleWith SemverRef.api (packageDep "lodash" "4.17.21")
              {[ "lodash" := Str "^4.5.0" ]} = Ok c.
Proof.
  assert (getSemverType SemverRef.api (Str "latest") = None) as Hi
    by (vm_compute; reflexivity).
  destruct (invalid_specifier_incompatible SemverRef.api "lodash" "latest"
              (Str "^4.5.0") {[ "lodash" := Str "^4.5.0" ]}
              (lookup_singleton_eq "lodash" (Str "^4.5.0"))) as [H1 H2].
  split; [exact Hi|]. split; [exact (H1 (or_introl Hi))|].
  exact (H2 ref_contract "4.17.21" _).
Defined.

Lemma reconcile_buckets_witness :
  exists w1 : Warnings,
    warnOne SemverRef.api {[ "lodash" := Str "^4.5.0" ]} ∅ lodash
      ("lodash", "^4.1.0") no_warnings = Ok w1 /\
    notInNodeModules w1 = [packageDep "lodash" "^4.1.0"].
Proof.
  destruct (reconcile_buckets SemverRef.api ref_contract
              {[ "lodash" := Str "^4.5.0" ]} ∅ [] [] lodash [] []
              "lodash" "^4.1.0" Logic.eq_refl)
    as (w0 & w1 & _ & _ & H0 & H1 & _ & _ & _ & [_ H] & _).
  injection H0 as <-. exists w1. split; [exact H1|].
  apply H. split; vm_compute; reflexivity.
Defined.

Lemma buckets_keep_iteration_order_witness :
  exists w : Warnings,
    reconcile SemverRef.api [lodash] ∅ {[ "lodash" := Str "4.17.21" ]} = Ok w /\
    notInBoth w
    = map entry_literal
        (List.filter (in_neither SemverRef.api ∅ {[ "lodash" := Str "4.17.21" ]})
           (declared [lodash])) /\
    notInPackageJson w
    = map entry_literal
        (List.filter (only_installed SemverRef.api ∅ {[ "lodash" := Str "4.17.21" ]})
           (declared [lodash])) /\
    notInNodeModules w
    = map entry_literal
        (List.filter (only_manifest SemverRef.api ∅ {[ "lodash" := Str "4.17.21" ]})
           (declared [lodash])).
Proof.
  exact (buckets_keep_iteration_order SemverRef.api ref_contract
           ∅ {[ "lodash" := Str "4.17.21" ]} [lodash]).
Defined.

Lemma at_most_one_bucket_witness :
  exists w' : Warnings,
    warnOne SemverRef.api ∅ ∅ lodash ("lodash", "^4.1.0") no_warnings = Ok w' /\
    notInBoth w' = [packageDep "lodash" "^4.1.0"] /\
    notInPackageJson w' = [] /\
    notInNodeModules w' = [].
Proof.
  destruct (at_most_one_bucket SemverRef.api ref_contract ∅ ∅ lodash
              "lodash" "^4.1.0" no_warnings [lodash])
    as [(w' & Hw & _ & _ & H) _].
  exists w'. split; [exact Hw|].
  apply H; vm_compute; reflexivity.
Defined.

Lemma unreadable_sources_report_everything_witness :
  semver_contract SemverRef.api /\
  readJSONSync no_files (path_join ["/project"; "package.json"])
  = Throw (Error "ENOENT") /\
  glob_sync no_files (path_join ["/project"; "node_modules"; "*"]) = [] /\
  warnForPackageDependencies SemverRef.api no_files [lodash] "/project"
  = Ok {| notInPackageJson := [];
          notInNodeModules := [];
          notInBoth := [packageDep "lodash" "^4.1.0"] |}.
Proof.
  split; [exact ref_contract|]. split; [reflexivity|]. split; [reflexivity|].
  destruct (unreadable_sources_report_everything SemverRef.api no_files
              [lodash] "/project") as (_ & _ & _ & _ & _ & H).
  exact (H (Error "ENOENT") Logic.eq_refl Logic.eq_refl).
Defined.

Lemma caret_rule_reads_one_digit_witness :
  getSemverType SemverRef.api (Str "^10.0.0") = Some R /\
  getSemverType SemverRef.api (Str "^1.0.0") = Some R /\
  getSemverType SemverRef.api (Str "^12.0.0") = Some R /\
  compatibleWith SemverRef.api (packageDep "lodash" "^10.0.0")
    {[ "lodash" := Str "^1.0.0" ]} = Ok true /\
  compatibleWith SemverRef.api (packageDep "lodash" "^10.0.0")
    {[ "lodash" := Str "^12.0.0" ]} = Ok true.
Proof.
  assert (getSemverType SemverRef.api (Str "^10.0.0") = Some R) as H10
    by (vm_compute; reflexivity).
  assert (getSemverType SemverRef.api (Str "^1.0.0") = Some R) as H1
    by (vm_compute; reflexivity).
  assert (getSemverType SemverRef.api (Str "^12.0.0") = Some R) as H12
    by (vm_compute; reflexivity).
  destruct (caret_rule_reads_one_digit SemverRef.api "lodash" H10 H1 H12)
    as (Ha & Hb & _).
  repeat split; assumption.
Defined.

(** * Further properties of the code *)

(** ** [key] and [compatibleWith] *)

Lemma compare_antisym (v w : SemverRef.version) :
  SemverRef.compare w v = CompOpp (SemverRef.compare v w).
Proof.
  unfold SemverRef.compare.
  rewrite (N.compare_antisym (SemverRef.major v) (SemverRef.major w)).
  rewrite (N.compare_antisym (SemverRef.minor v) (SemverRef.minor w)).
  rewrite (N.compare_antisym (SemverRef.patch v) (SemverRef.patch w)).
  destruct (N.compare (SemverRef.major v) (SemverRef.major w)); simpl;
    try reflexivity.
  now destruct (N.compare (SemverRef.minor v) (SemverRef.minor w)).
Qed.

Lemma ref_eq_sym (x y : string) :
  sv_eq SemverRef.api x y = sv_eq SemverRef.api y x.
Proof.
  simpl. unfold SemverRef.eq.
  destruct (SemverRef.parse x) as [v|], (SemverRef.parse y) as [w|];
    try reflexivity.
  rewrite (compare_antisym v w). now destruct (SemverRef.compare v w).
Qed.

Lemma caret_heuristic_sym (x y : string) :
  caret_heuristic x y = caret_heuristic y x.
Proof.
  unfold caret_heuristic.
  destruct (leading_major_digit x) as [c|], (leading_major_digit y) as [d|];
    try reflexivity.
  destruct (Ascii.eqb_spec c d) as [->|Hne].
  - now rewrite Ascii.eqb_refl.
  - symmetry. apply Ascii.eqb_neq. congruence.
Qed.

Section Declaration.

Variable semver : semver_api.

(** The answer is a function of what the source reads at the name. *)
Lemma compatibleWith_get (a : literal) (b b' : gmap string value) :
  get b (property_key (key a)) = get b' (property_key (key a)) ->
  compatibleWith semver a b = compatibleWith semver a b'.
Proof. intros H. unfold compatibleWith. now rewrite H. Qed.

Lemma compatibleWith_invalid (n v : string) (x : value) (b : gmap string value) :
  b !! n = Some x ->
  getSemverType semver (Str v) = None \/ getSemverType semver x = None ->
  compatibleWith semver (packageDep n v) b = Ok false.
Proof.
  intros Hb H. open_compatibleWith Hb.
  destruct (negb (truthy x)); [reflexivity|].
  destruct H as [-> | ->]; [reflexivity|].
  now destruct (getSemverType semver (Str v)) as [[]|].
Qed.

(** The declaration is read through its first key only: further entries of
    the object are ignored, and an object without keys is compatible with
    no source, not even with one that has an entry named [undefined]. *)
Theorem declaration_first_key (n : string) (x : value) (rest : literal)
    (b : gmap string value) :
  compatibleWith semver ((n, x) :: rest) b = compatibleWith semver [(n, x)] b /\
  compatibleWith semver [] b = Ok false.
Proof.
  split.
  - assert (forall l, get (own ((n, x) :: l)) n = x) as Hown.
    { intros l. unfold get, own. simpl. now rewrite lookup_insert_eq. }
    unfold compatibleWith.
    change (property_key (key ((n, x) :: rest))) with n.
    change (property_key (key [(n, x)])) with n.
    now rewrite !Hown.
  - unfold compatibleWith. cbn [key keys map head property_key].
    assert (get (own []) "undefined" = Undefined) as -> by reflexivity.
    destruct (negb (truthy (get b "undefined"))); [reflexivity|].
    reflexivity.
Qed.

(** Only the entry under the declared name matters: adding, replacing or
    removing an entry under another name leaves the answer as it is. *)
Theorem other_entries_irrelevant (n v m : string) (x : value)
    (b : gmap string value) :
  m <> n ->
  compatibleWith semver (packageDep n v) (<[m := x]> b)
  = compatibleWith semver (packageDep n v) b /\
  compatibleWith semver (packageDep n v) (delete m b)
  = compatibleWith semver (packageDep n v) b.
Proof.
  intros Hne. split; apply compatibleWith_get; rewrite key_packageDep;
    unfold get.
  - now rewrite lookup_insert_ne.
  - now rewrite lookup_delete_ne.
Qed.

(** With a non-empty entry in the source, two exact versions are compared
    by [semver.eq], and an exact version on either side is tested against
    the range on the other side by [semver.satisfies]; the answer, an
    exception included, is that of the library. *)
Theorem exact_cases (n a bv : string) (b : gmap string value) :
  b !! n = Some (Str bv) -> bv <> "" ->
  (getSemverType semver (Str a) = Some V ->
   getSemverType semver (Str bv) = Some V ->
   compatibleWith semver (packageDep n a) b = sv_eq semver a bv) /\
  (getSemverType semver (Str a) = Some V ->
   getSemverType semver (Str bv) = Some R ->
   compatibleWith semver (packageDep n a) b = sv_satisfies semver a bv) /\
  (getSemverType semver (Str a) = Some R ->
   getSemverType semver (Str bv) = Some V ->
   compatibleWith semver (packageDep n a) b = sv_satisfies semver bv a).
Proof.
  intros Hb Hne. split; [|split]; intros Ha Hbv.
  - now apply compatibleWith_exact_exact.
  - now apply compatibleWith_exact_range.
  - now apply compatibleWith_range_exact.
Qed.

(** A range is compatible with itself only when it is a caret range whose
    caret is followed by a digit: any other range, say a tilde range or a
    comparator set, is reported as incompatible with the very same range. *)
Theorem range_against_itself (n v : string) :
  getSemverType semver (Str v) = Some R ->
  compatibleWith semver (packageDep n v) {[ n := Str v ]}
  = Ok (match leading_major_digit v with Some _ => true | None => false end).
Proof.
  intros Hv.
  rewrite (compatibleWith_ranges semver n v v _ (lookup_singleton_eq n (Str v)) Hv Hv).
  unfold caret_heuristic. destruct (leading_major_digit v); [|reflexivity].
  now rewrite Ascii.eqb_refl.
Qed.

(** Swapping the declared specifier and the entry of the source does not
    change the answer, as long as neither is the empty string and
    [semver.eq] does not depend on the order of its arguments. *)
Theorem swap_declared_and_entry (n a bv : string) :
  (forall x y, sv_eq semver x y = sv_eq semver y x) ->
  a <> "" -> bv <> "" ->
  compatibleWith semver (packageDep n a) {[ n := Str bv ]}
  = compatibleWith semver (packageDep n bv) {[ n := Str a ]}.
Proof.
  intros Hsym Ha Hb.
  pose proof (lookup_singleton_eq (M := gmap string) n (Str bv)) as Lb.
  pose proof (lookup_singleton_eq (M := gmap string) n (Str a)) as La.
  destruct (getSemverType semver (Str a)) as [[]|] eqn:Ea;
    destruct (getSemverType semver (Str bv)) as [[]|] eqn:Eb.
  - rewrite (compatibleWith_exact_exact semver n a bv _ Lb Hb Ea Eb).
    rewrite (compatibleWith_exact_exact semver n bv a _ La Ha Eb Ea).
    apply Hsym.
  - rewrite (compatibleWith_exact_range semver n a bv _ Lb Hb Ea Eb).
    now rewrite (compatibleWith_range_exact semver n bv a _ La Ha Eb Ea).
  - rewrite (compatibleWith_invalid n a (Str bv) _ Lb) by auto.
    now rewrite (compatibleWith_invalid n bv (Str a) _ La) by auto.
  - rewrite (compatibleWith_range_exact semver n a bv _ Lb Hb Ea Eb).
    now rewrite (compatibleWith_exact_range semver n bv a _ La Ha Eb Ea).
  - rewrite (compatibleWith_ranges semver n a bv _ Lb Ea Eb).
    rewrite (compatibleWith_ranges semver n bv a _ La Eb Ea).
    now rewrite caret_heuristic_sym.
  - rewrite (compatibleWith_invalid n a (Str bv) _ Lb) by auto.
    now rewrite (compatibleWith_invalid n bv (Str a) _ La) by auto.
  - rewrite (compatibleWith_invalid n a (Str bv) _ Lb) by auto.
    now rewrite (compatibleWith_invalid n bv (Str a) _ La) by auto.
  - rewrite (compatibleWith_invalid n a (Str bv) _ Lb) by auto.
    now rewrite (compatibleWith_invalid n bv (Str a) _ La) by auto.
  - rewrite (compatibleWith_invalid n a (Str bv) _ Lb) by auto.
    now rewrite (compatibleWith_invalid n bv (Str a) _ La) by auto.
Qed.

End Declaration.

(** ** Building the sources: merge order and failures *)

Lemma assign_lookup (l r : gmap string value) (k : string) :
  k <> "__proto__" ->
  assign l r !! k = match r !! k with Some v => Some v | None => l !! k end.
Proof.
  intros Hk. unfold assign. rewrite lookup_delete_ne by congruence.
  rewrite lookup_union. now destruct (r !! k), (l !! k).
Qed.

Lemma assign_lookup_proto (l r : gmap string value) :
  assign l r !! "__proto__" = None.
Proof. unfold assign. apply lookup_delete_eq. Qed.

Lemma fold_assign_keep (os : list (gmap string value)) (acc : gmap string value)
    (k : string) (v : value) :
  k <> "__proto__" -> acc !! k = Some v ->
  (forall o, In o os -> o !! k = None) ->
  fold_left assign os acc !! k = Some v.
Proof.
  intros Hk. revert acc. induction os as [|o os IH]; intros acc Hacc Hos.
  - exact Hacc.
  - simpl. apply IH.
    + rewrite (assign_lookup _ _ _ Hk), (Hos o (or_introl Logic.eq_refl)).
      exact Hacc.
    + intros o' Ho'. apply Hos. now right.
Qed.

Lemma mergeAll_last (os1 os2 : list (gmap string value)) (o : gmap string value)
    (k : string) (v : value) :
  k <> "__proto__" -> o !! k = Some v ->
  (forall o', In o' os2 -> o' !! k = None) ->
  mergeAll (os1 ++ o :: os2) !! k = Some v.
Proof.
  intros Hk Ho Hos. unfold mergeAll. rewrite fold_left_app. simpl.
  apply fold_assign_keep; [exact Hk| |exact Hos].
  now rewrite (assign_lookup _ _ _ Hk), Ho.
Qed.

Section Store.

Variable fs : FileSystem.

Lemma getNameAndVersion_object pj :
  getNameAndVersion (JObject pj) = Ok (store_entry (JObject pj)).
Proof. reflexivity. Qed.

(** The store is read entry by entry: every entry is turned into its
    contribution, unless one of them holds [null]. *)
Lemma mapM_store (l : list string) :
  ((forall q, In q l -> getPackageJson fs q <> JNull) /\
   mapM (fun p => getNameAndVersion (getPackageJson fs p)) l
   = Ok (map (fun p => store_entry (getPackageJson fs p)) l))
  \/
  ((exists q, In q l /\ getPackageJson fs q = JNull) /\
   mapM (fun p => getNameAndVersion (getPackageJson fs p)) l
   = Throw (TypeError "Cannot read property of null")).
Proof.
  induction l as [|p l [[Hall IH] | [Hex IH]]].
  - left. split; [intros q []|reflexivity].
  - destruct (getPackageJson fs p) as [|pj] eqn:Ep.
    + right. split; [exists p; split; [now left|exact Ep]|].
      simpl. now rewrite Ep.
    + left. split.
      * intros q [<-|Hq]; [congruence | now apply Hall].
      * simpl. rewrite Ep, IH. reflexivity.
  - right. split.
    + destruct Hex as (q & Hq & Hnull). exists q. split; [now right|exact Hnull].
    + simpl. destruct (getPackageJson fs p) as [|pj]; [reflexivity|].
      simpl. now rewrite IH.
Qed.

(** In the manifest source the development dependencies override the
    regular ones name by name, and the name [__proto__] never gets an
    entry. *)
Theorem devDependencies_override (dir : string) (pj : PackageJson) :
  readJSONSync fs (path_join [dir; "package.json"]) = Ok (JObject pj) ->
  exists m : gmap string value,
    packageJsonDependencies_of fs dir = Ok m /\
    m !! "__proto__" = None /\
    forall k, k <> "__proto__" ->
      m !! k = match or_empty (devDependencies pj) !! k with
               | Some v => Some v
               | None => or_empty (dependencies pj) !! k
               end.
Proof.
  intros H. eexists. split; [|split].
  - unfold packageJsonDependencies_of, getPackageJson. rewrite H. reflexivity.
  - apply assign_lookup_proto.
  - intros k Hk. unfold merge. now apply assign_lookup.
Qed.

(** The installed source is keyed by the name found in the metadata of an
    entry, not by its directory, and when several entries carry the same
    name the one listed last gives the version. *)
Theorem store_last_entry_wins (dir p : string) (ps qs : list string)
    (pj : PackageJson) :
  glob_sync fs (path_join [dir; "node_modules"; "*"]) = ps ++ p :: qs ->
  (forall q, In q (ps ++ qs) -> getPackageJson fs q <> JNull) ->
  getPackageJson fs p = JObject pj ->
  property_key (name pj) <> "__proto__" ->
  (forall q pj', In q qs -> getPackageJson fs q = JObject pj' ->
     property_key (name pj') <> property_key (name pj)) ->
  exists m : gmap string value,
    nodeModules_of fs dir = Ok m /\
    m !! property_key (name pj) = Some (version_value pj).
Proof.
  intros Hg Hnn Hp Hk Hlater. unfold nodeModules_of. rewrite Hg.
  destruct (mapM_store (ps ++ p :: qs)) as [[_ ->] | [(q & Hq & Hnull) _]].
  - eexists. split; [reflexivity|]. rewrite map_app. cbn [map].
    apply mergeAll_last; [exact Hk | |].
    + rewrite Hp. apply lookup_singleton_eq.
    + intros o Ho. apply in_map_iff in Ho as (q & <- & Hq).
      destruct (getPackageJson fs q) as [|pj'] eqn:Eq; [apply lookup_empty|].
      apply lookup_singleton_ne. exact (Hlater q pj' Hq Eq).
  - exfalso. apply in_app_or in Hq as [Hq | [<- | Hq]].
    + apply (Hnn q); [apply in_or_app; now left | exact Hnull].
    + congruence.
    + apply (Hnn q); [apply in_or_app; now right | exact Hnull].
Qed.

End Store.

Section Raising.

Variable semver : semver_api.
Hypothesis contract : semver_contract semver.

Lemma reconcile_total (cs : list Component) (pj nm : gmap string value) :
  exists w, reconcile semver cs pj nm = Ok w.
Proof.
  eexists. apply reconcile_extend; intros n v;
    apply compatibleWith_total, contract.
Qed.

(** Under the contract of the library, [warnForPackageDependencies] raises
    exactly when a JSON file it reads, the manifest or the metadata of a
    store entry, holds the literal [null]; the exception is then the
    [TypeError] of the property access. *)
Theorem raises_iff_null_json (fs : FileSystem) (cs : list Component)
    (dir : string) :
  ((exists e, warnForPackageDependencies semver fs cs dir = Throw e)
   <-> (getPackageJson fs dir = JNull
        \/ exists p,
             In p (glob_sync fs (path_join [dir; "node_modules"; "*"]))
             /\ getPackageJson fs p = JNull)) /\
  (forall e, warnForPackageDependencies semver fs cs dir = Throw e ->
     e = TypeError "Cannot read property of null").
Proof.
  unfold warnForPackageDependencies, packageJsonDependencies_of, nodeModules_of.
  destruct (getPackageJson fs dir) as [|pj] eqn:Em.
  { simpl. split; [|intros e [= <-]; reflexivity].
    split; [auto | intros _; eauto]. }
  cbn [field bind].
  destruct (mapM_store fs (glob_sync fs (path_join [dir; "node_modules"; "*"])))
    as [[Hall ->] | [Hex ->]]; cbn [bind].
  - match goal with
    | |- context [reconcile semver cs ?a ?b] =>
        destruct (reconcile_total cs a b) as [w Hw]; rewrite Hw
    end.
    split; [|discriminate]. split.
    + intros [e He]. discriminate.
    + intros [H | (p & Hp & Hnull)]; [discriminate|].
      destruct (Hall p Hp Hnull).
  - split; [|intros e [= <-]; reflexivity].
    split; [intros _; right; exact Hex | intros _; eauto].
Qed.

End Raising.

(** ** The report as a whole *)

Lemma filter_nil_iff {A : Type} (f : A -> bool) (l : list A) :
  List.filter f l = [] <-> forall x, In x l -> f x = false.
Proof.
  induction l as [|a l IH]; simpl.
  - split; [intros _ x [] | reflexivity].
  - destruct (f a) eqn:Ea.
    + split; [discriminate|]. intros H. specialize (H a (or_introl Logic.eq_refl)).
      congruence.
    + rewrite IH. split.
      * intros H x [<-|Hx]; [exact Ea | now apply H].
      * intros H x Hx. apply H. now right.
Qed.

Section Report.

Variable semver : semver_api.
Variables pj nm : gmap string value.

(** A component whose [packageDependencies] is missing or empty can be
    removed from the input without changing the outcome. *)
Theorem component_without_dependencies (cs1 cs2 : list Component)
    (c : Component) :
  packageDependencies c = None \/ packageDependencies c = Some [] ->
  reconcile semver (cs1 ++ c :: cs2) pj nm
  = reconcile semver (cs1 ++ cs2) pj nm.
Proof.
  intros H. unfold reconcile. rewrite !forEach_app.
  destruct (forEach _ cs1 no_warnings) as [w|e]; [|reflexivity].
  cbn [bind forEach]. unfold warnComponent at 1.
  now destruct H as [-> | ->].
Qed.

(** The identifier of a component never reaches the report: the message
    built from it is dropped, so renaming the components changes
    nothing. *)
Theorem identifiers_do_not_matter (f : string -> string) (cs : list Component) :
  reconcile semver (map (with_id f) cs) pj nm = reconcile semver cs pj nm.
Proof.
  unfold reconcile. generalize no_warnings as w.
  induction cs as [|c cs IH]; intros w; [reflexivity|].
  cbn [map forEach].
  assert (warnComponent semver pj nm (with_id f c) w
          = warnComponent semver pj nm c w) as ->.
  { unfold warnComponent, with_id. cbn [packageDependencies].
    now destruct (packageDependencies c) as [[|e l]|]. }
  destruct (warnComponent semver pj nm c w); cbn [bind]; [apply IH|reflexivity].
Qed.

Hypothesis contract : semver_contract semver.

Lemma contract_total (b : gmap string value) n v :
  exists c, compatibleWith semver (packageDep n v) b = Ok c.
Proof. apply compatibleWith_total, contract. Qed.

(** Reconciling a concatenation of inputs gives the concatenation of the
    reports, bucket by bucket. *)
Theorem reconcile_app (cs1 cs2 : list Component) :
  exists w1 w2 : Warnings,
    reconcile semver cs1 pj nm = Ok w1 /\
    reconcile semver cs2 pj nm = Ok w2 /\
    reconcile semver (cs1 ++ cs2) pj nm = Ok (append_warnings w1 w2).
Proof.
  pose proof (reconcile_extend semver pj nm (contract_total pj) (contract_total nm))
    as H.
  exists (extend semver pj nm no_warnings (declared cs1)).
  exists (extend semver pj nm no_warnings (declared cs2)).
  rewrite !H. repeat split.
  unfold append_warnings, extend, declared. cbn [no_warnings notInBoth
    notInPackageJson notInNodeModules app].
  now rewrite flat_map_app, !List.filter_app, !map_app.
Qed.

(** The report holds one entry for every declared pair that is not
    compatible with both sources, and no other entry. *)
Theorem number_of_warnings (cs : list Component) :
  exists w : Warnings,
    reconcile semver cs pj nm = Ok w /\
    entries w
    = List.length
        (List.filter
           (fun e => negb (isCompatible semver (fst e) (snd e) pj
                           && isCompatible semver (fst e) (snd e) nm))
           (declared cs)).
Proof.
  eexists. split.
  - apply (reconcile_extend semver pj nm (contract_total pj) (contract_total nm)).
  - unfold entries, extend. cbn [no_warnings notInBoth notInPackageJson
      notInNodeModules app]. rewrite !length_map.
    induction (declared cs) as [|[n v] l IH]; [reflexivity|].
    unfold only_installed, only_manifest, in_neither in *.
    cbn [List.filter fst snd].
    destruct (isCompatible semver n v pj), (isCompatible semver n v nm);
      cbn [negb andb List.length]; lia.
Qed.

(** The report is empty exactly when every declared pair is compatible with
    the manifest source and with the installed source. *)
Theorem no_warning_iff_all_compatible (cs : list Component) :
  reconcile semver cs pj nm = Ok no_warnings
  <-> forall n v, In (n, v) (declared cs) ->
        isCompatible semver n v pj = true /\ isCompatible semver n v nm = true.
Proof.
  rewrite (reconcile_extend semver pj nm (contract_total pj) (contract_total nm)).
  unfold extend. cbn [no_warnings notInBoth notInPackageJson notInNodeModules app].
  split.
  - intros [= H1 H2 H3] n v Hin.
    apply map_eq_nil in H1, H2, H3.
    pose proof (proj1 (filter_nil_iff _ _) H1 _ Hin) as E1.
    pose proof (proj1 (filter_nil_iff _ _) H2 _ Hin) as E2.
    pose proof (proj1 (filter_nil_iff _ _) H3 _ Hin) as E3.
    unfold only_installed, only_manifest, in_neither in *. cbn [fst snd] in *.
    destruct (isCompatible semver n v pj), (isCompatible semver n v nm);
      simpl in *; auto; discriminate.
  - intros H.
    assert (forall g, (forall n v, isCompatible semver n v pj = true ->
                         isCompatible semver n v nm = true -> g (n, v) = false) ->
              List.filter g (declared cs) = []) as Hnil.
    { intros g Hg. apply filter_nil_iff. intros [n v] Hin.
      destruct (H n v Hin). now apply Hg. }
    rewrite !Hnil; [reflexivity| | |];
      intros n v Hp Hn; unfold only_installed, only_manifest, in_neither;
      cbn [fst snd]; now rewrite Hp, Hn.
Qed.

End Report.

(** ** The import action *)

Ltac unfold_import :=
  unfold importAction, importEnvironment, writeToBitJsonIfNeeded, first_id,
    and_then, call, inside, resolve, reject.

(** Split on every answer of a collaborator that the goal inspects. *)
Ltac split_answers :=
  repeat match goal with
    | |- context [match ?x with _ => _ end] =>
        lazymatch x with
        | context [match _ with _ => _ end] => fail
        | _ => destruct x eqn:?; cbn [fst snd]
        end
    end.

(** Exhibit the calls made after the history [t0]. *)
Ltac exhibit_calls :=
  rewrite <- ?app_assoc; eexists; split; [reflexivity|].

Section ImportProperties.

Variable BitId : Type.
Variable semver : semver_api.
Variable platform : Platform BitId.
Variable args : ImportArgs.

(** Without a truthy [save] the action never changes [bit.json]: whatever
    the collaborators answer, no identifier is set, no dependency is added
    and nothing is written. *)
Theorem bitJson_untouched_without_save (t0 : list (event BitId)) :
  flag_truthy (save args) = false ->
  exists calls,
    snd (importAction semver platform args t0) = t0 ++ calls /\
    forallb (fun ev => negb (touches_bitJson ev)) calls = true.
Proof.
  intros Hs. unfold_import. rewrite Hs. cbn [andb].
  split_answers; exhibit_calls; reflexivity.
Qed.

(** The two paths exclude each other.  With a truthy [tester] or
    [compiler] no component is imported, no dependency is added and the
    result carries the environments only, so no warning is computed; with
    neither, the loader is not started, no environment is imported and no
    compiler or tester is set, and a result carries a report. *)
Theorem paths_are_exclusive (t0 : list (event BitId)) :
  exists calls,
    snd (importAction semver platform args t0) = t0 ++ calls /\
    if (flag_truthy (tester args) || flag_truthy (compiler args))%bool
    then
      forallb (fun ev => negb (component_call ev)) calls = true /\
      forall r, fst (importAction semver platform args t0) = Ok r ->
        exists envs, r = EnvImported envs
    else
      forallb (fun ev => negb (environment_call ev)) calls = true /\
      forall r, fst (importAction semver platform args t0) = Ok r ->
        exists deps envs w, r = ComponentsImported deps envs w.
Proof.
  unfold_import.
  destruct (flag_truthy (tester args) || flag_truthy (compiler args))%bool;
    split_answers; exhibit_calls;
    (split; [reflexivity|]); intros r' [= <-]; eauto.
Qed.

(** The consumer is ensured first, in the resolved [prefix] when there is a
    non-empty one and in the working directory otherwise.  When ensuring
    the consumer or the directory of its scope fails, the action fails with
    the same error and makes no further call. *)
Theorem consumer_is_ensured_first (t0 : list (event BitId)) :
  let dir := performOnDir platform args in
  dir = match prefix args with
        | Some p => if String.eqb p "" then process_cwd platform
                    else path_resolve platform p
        | None => process_cwd platform
        end /\
  (exists rest,
     snd (importAction semver platform args t0)
     = t0 ++ EnsureConsumer dir :: rest) /\
  (forall e, Consumer_ensure platform t0 dir = Throw e ->
     importAction semver platform args t0
     = (Throw e, t0 ++ [EnsureConsumer dir])) /\
  (forall c e,
     Consumer_ensure platform t0 dir = Ok c ->
     scope_ensureDir c (t0 ++ [EnsureConsumer dir]) = Throw e ->
     importAction semver platform args t0
     = (Throw e, t0 ++ [EnsureConsumer dir; EnsureScopeDir])).
Proof.
  intros dir. split; [|split; [|split]].
  - unfold dir, performOnDir, string_truthy.
    destruct (prefix args) as [p|]; [|reflexivity].
    now destruct (String.eqb p "").
  - unfold_import. fold dir. split_answers; rewrite <- ?app_assoc;
      eexists; reflexivity.
  - intros e He. unfold_import. fold dir. now rewrite He.
  - intros c e Hc He. unfold_import. fold dir. rewrite Hc, He.
    now rewrite <- app_assoc.
Qed.

(** The environment path, once the consumer, its scope and the import of
    the environment have succeeded.  Without [save] nothing more happens.
    With [save] the identifier of the first environment becomes the
    compiler when [compiler] is truthy, the tester otherwise, and
    [bit.json] is written to the path of the consumer; when no environment
    came back the action fails before it writes. *)
Theorem environment_path (t0 : list (event BitId)) (c : Consumer BitId)
    (envs : list Component) :
  let dir := performOnDir platform args in
  let t3 := t0 ++ [EnsureConsumer dir; EnsureScopeDir;
                   LoaderStart (BEFORE_IMPORT_ENVIRONMENT platform)] in
  let t4 := t3 ++ [ImportEnvironment (bitId args) (verbose args)] in
  (flag_truthy (tester args) || flag_truthy (compiler args))%bool = true ->
  Consumer_ensure platform t0 dir = Ok c ->
  scope_ensureDir c (t0 ++ [EnsureConsumer dir]) = Ok tt ->
  consumer_importEnvironment c t3 (bitId args) (verbose args) = Ok envs ->
  (flag_truthy (save args) = false ->
   importAction semver platform args t0 = (Ok (EnvImported envs), t4)) /\
  (flag_truthy (save args) = true -> envs = [] ->
   importAction semver platform args t0
   = (Throw (TypeError "Cannot read property 'id' of undefined"), t4)) /\
  (flag_truthy (save args) = true ->
   forall e es, envs = e :: es ->
     let set := if flag_truthy (compiler args)
                then SetCompilerId (id e) else SetTesterId (id e) in
     importAction semver platform args t0
     = (match bitJson_write c (t4 ++ [set]) (getPath c) with
        | Ok _ => Ok (EnvImported envs)
        | Throw x => Throw x
        end,
        t4 ++ [set; WriteBitJson (getPath c)])).
Proof.
  intros dir t3 t4 Hflag Hc Hs He.
  assert (t3 = ((t0 ++ [EnsureConsumer dir]) ++ [EnsureScopeDir])
               ++ [LoaderStart (BEFORE_IMPORT_ENVIRONMENT platform)]) as Et3.
  { unfold t3. now rewrite <- !app_assoc. }
  split; [|split].
  - intros Hsave. unfold_import. fold dir. rewrite Hc, Hs, Hflag.
    rewrite <- Et3, He, Hsave. reflexivity.
  - intros Hsave ->. unfold_import. fold dir. rewrite Hc, Hs, Hflag.
    rewrite <- Et3, He, Hsave. cbn [andb].
    destruct (flag_truthy (compiler args)) eqn:Ecomp; [reflexivity|].
    destruct (flag_truthy (tester args)); [reflexivity|discriminate].
  - intros Hsave e es -> set. unfold_import. fold dir. rewrite Hc, Hs, Hflag.
    rewrite <- Et3, He, Hsave. cbn [andb]. fold t4. unfold set.
    destruct (flag_truthy (compiler args)) eqn:Ecomp.
    + destruct (bitJson_write c _ _); now rewrite <- app_assoc.
    + assert (flag_truthy (tester args) = true) as ->
        by (now destruct (flag_truthy (tester args))).
      destruct (bitJson_write c _ _); now rewrite <- app_assoc.
Qed.

(** The component path.  A result carries the two lists that the import of
    the consumer returned, unchanged, together with the report computed for
    the first list only, in the path of the consumer, on the files as they
    are when all calls have been made. *)
Theorem component_path_result (t0 : list (event BitId)) (r : Imported) :
  let dir := performOnDir platform args in
  (flag_truthy (tester args) || flag_truthy (compiler args))%bool = false ->
  fst (importAction semver platform args t0) = Ok r ->
  exists c deps envs w,
    Consumer_ensure platform t0 dir = Ok c /\
    consumer_import c (t0 ++ [EnsureConsumer dir; EnsureScopeDir])
      (bitId args) (verbose args) (environment args) = Ok (deps, envs) /\
    warnForPackageDependencies semver
      (files platform (snd (importAction semver platform args t0)))
      deps (getPath c) = Ok w /\
    r = ComponentsImported deps envs w.
Proof.
  intros dir Hflag. unfold_import. fold dir. rewrite Hflag.
  destruct (Consumer_ensure platform t0 dir) as [c|] eqn:Hc; [|discriminate].
  destruct (scope_ensureDir c _) as [[]|] eqn:Hs; [|discriminate].
  rewrite <- app_assoc in *. cbn [app] in *.
  destruct (consumer_import c _ _ _ _) as [[deps envs]|] eqn:Hi; [|discriminate].
  cbn [fst snd].
  destruct (flag_truthy (save args)).
  - destruct (BitId_parse platform _ _) as [i|]; [|discriminate].
    destruct (bitJson_addDependency c _ i); [|discriminate].
    destruct (bitJson_write c _ _); [|discriminate].
    cbn [fst snd].
    destruct (warnForPackageDependencies _ _ _ _) as [w|] eqn:Hw;
      [|discriminate].
    intros [= <-]. exists c, deps, envs, w. auto.
  - cbn [fst snd].
    destruct (warnForPackageDependencies _ _ _ _) as [w|] eqn:Hw;
      [|discriminate].
    intros [= <-]. exists c, deps, envs, w. auto.
Qed.

(** The component path with [save], once the consumer, its scope and the
    import have succeeded.  The bit id is parsed in the scope of the
    consumer; when parsing fails the action fails and [bit.json] is left
    alone; otherwise the parsed id is added, [bit.json] is written to the
    path of the consumer, and only then is the report computed. *)
Theorem component_path_save (t0 : list (event BitId)) (c : Consumer BitId)
    (deps envs : list Component) :
  let dir := performOnDir platform args in
  let t3 := t0 ++ [EnsureConsumer dir; EnsureScopeDir;
                   ImportComponents (bitId args) (verbose args)
                     (environment args)] in
  (flag_truthy (tester args) || flag_truthy (compiler args))%bool = false ->
  flag_truthy (save args) = true ->
  Consumer_ensure platform t0 dir = Ok c ->
  scope_ensureDir c (t0 ++ [EnsureConsumer dir]) = Ok tt ->
  consumer_import c (t0 ++ [EnsureConsumer dir; EnsureScopeDir])
    (bitId args) (verbose args) (environment args) = Ok (deps, envs) ->
  (forall x, BitId_parse platform (bitId args) (scope_name c) = Throw x ->
     importAction semver platform args t0 = (Throw x, t3)) /\
  (forall i,
     BitId_parse platform (bitId args) (scope_name c) = Ok i ->
     bitJson_addDependency c t3 i = Ok tt ->
     bitJson_write c (t3 ++ [AddDependency i]) (getPath c) = Ok tt ->
     let t5 := t3 ++ [AddDependency i; WriteBitJson (getPath c)] in
     importAction semver platform args t0
     = (match warnForPackageDependencies semver (files platform t5) deps
                (getPath c) with
        | Ok w => Ok (ComponentsImported deps envs w)
        | Throw x => Throw x
        end, t5)).
Proof.
  intros dir t3 Hflag Hsave Hc Hs Hi.
  assert (t3 = ((t0 ++ [EnsureConsumer dir]) ++ [EnsureScopeDir])
               ++ [ImportComponents (bitId args) (verbose args)
                     (environment args)]) as Et3.
  { unfold t3. now rewrite <- !app_assoc. }
  assert ((t0 ++ [EnsureConsumer dir]) ++ [EnsureScopeDir]
          = t0 ++ [EnsureConsumer dir; EnsureScopeDir]) as Et2.
  { now rewrite <- app_assoc. }
  split.
  - intros x Hx. unfold_import. fold dir. rewrite Hc, Hs, Hflag.
    rewrite Et2, Hi, Hsave, Hx. cbn [fst snd]. now rewrite <- Et2, <- Et3.
  - intros i Hp Ha Hw t5. unfold_import. fold dir. rewrite Hc, Hs, Hflag.
    rewrite Et2, Hi, Hsave, Hp. cbn [fst snd]. rewrite <- Et2, <- Et3.
    rewrite Ha, Hw.
    assert ((t3 ++ [AddDependency i]) ++ [WriteBitJson (getPath c)] = t5) as ->.
    { unfold t5. now rewrite <- app_assoc. }
    now destruct (warnForPackageDependencies _ _ _ _).
Qed.

(** When the import itself fails, of the components or of the environment,
    the action fails with the same error right after that call: [bit.json]
    is not changed and the project files are not read. *)
Theorem failed_import_stops (t0 : list (event BitId)) (c : Consumer BitId) :
  let dir := performOnDir platform args in
  let t2 := t0 ++ [EnsureConsumer dir; EnsureScopeDir] in
  let t3 := t2 ++ [LoaderStart (BEFORE_IMPORT_ENVIRONMENT platform)] in
  Consumer_ensure platform t0 dir = Ok c ->
  scope_ensureDir c (t0 ++ [EnsureConsumer dir]) = Ok tt ->
  (forall e,
     (flag_truthy (tester args) || flag_truthy (compiler args))%bool = false ->
     consumer_import c t2 (bitId args) (verbose args) (environment args)
     = Throw e ->
     importAction semver platform args t0
     = (Throw e,
        t2 ++ [ImportComponents (bitId args) (verbose args)
                 (environment args)])) /\
  (forall e,
     (flag_truthy (tester args) || flag_truthy (compiler args))%bool = true ->
     consumer_importEnvironment c t3 (bitId args) (verbose args) = Throw e ->
     importAction semver platform args t0
     = (Throw e, t3 ++ [ImportEnvironment (bitId args) (verbose args)])).
Proof.
  intros dir t2 t3 Hc Hs.
  assert ((t0 ++ [EnsureConsumer dir]) ++ [EnsureScopeDir] = t2) as Et2.
  { unfold t2. now rewrite <- app_assoc. }
  split; intros e Hflag He; unfold_import; fold dir;
    rewrite Hc, Hs, Hflag, Et2.
  - now rewrite He.
  - fold t3. now rewrite He.
Qed.

End ImportProperties.

(** ** The further properties at concrete inputs *)

Lemma other_entries_irrelevant_witness :
  "react" <> "lodash" /\
  compatibleWith SemverRef.api (packageDep "lodash" "^4.1.0")
    (<[ "react" := Str "^16.0.0" ]> {[ "lodash" := Str "^4.5.0" ]})
  = compatibleWith SemverRef.api (packageDep "lodash" "^4.1.0")
      {[ "lodash" := Str "^4.5.0" ]}.
Proof.
  assert ("react" <> "lodash") as H by discriminate.
  split; [exact H|].
  exact (proj1 (other_entries_irrelevant SemverRef.api "lodash" "^4.1.0"
                  "react" (Str "^16.0.0") {[ "lodash" := Str "^4.5.0" ]} H)).
Defined.

Lemma exact_cases_witness :
  compatibleWith SemverRef.api (packageDep "lodash" "^4.1.0")
    {[ "lodash" := Str "4.17.21" ]}
  = sv_satisfies SemverRef.api "4.17.21" "^4.1.0".
Proof.
  assert ("4.17.21" <> "") as Hne by discriminate.
  assert (getSemverType SemverRef.api (Str "^4.1.0") = Some R) as Ha
    by (vm_compute; reflexivity).
  assert (getSemverType SemverRef.api (Str "4.17.21") = Some V) as Hb
    by (vm_compute; reflexivity).
  destruct (exact_cases SemverRef.api "lodash" "^4.1.0" "4.17.21"
              {[ "lodash" := Str "4.17.21" ]}
              (lookup_singleton_eq "lodash" (Str "4.17.21")) Hne)
    as (_ & _ & H).
  exact (H Ha Hb).
Defined.

Lemma range_against_itself_witness :
  getSemverType SemverRef.api (Str "~1.2.3") = Some R /\
  compatibleWith SemverRef.api (packageDep "lodash" "~1.2.3")
    {[ "lodash" := Str "~1.2.3" ]} = Ok false.
Proof.
  assert (getSemverType SemverRef.api (Str "~1.2.3") = Some R) as H
    by (vm_compute; reflexivity).
  split; [exact H|].
  exact (range_against_itself SemverRef.api "lodash" "~1.2.3" H).
Defined.

Lemma swap_declared_and_entry_witness :
  compatibleWith SemverRef.api (packageDep "lodash" "^4.1.0")
    {[ "lodash" := Str "4.17.21" ]}
  = compatibleWith SemverRef.api (packageDep "lodash" "4.17.21")
      {[ "lodash" := Str "^4.1.0" ]}.
Proof.
  assert ("^4.1.0" <> "") as Ha by discriminate.
  assert ("4.17.21" <> "") as Hb by discriminate.
  exact (swap_declared_and_entry SemverRef.api "lodash" "^4.1.0" "4.17.21"
           ref_eq_sym Ha Hb).
Defined.

Lemma devDependencies_override_witness :
  exists m : gmap string value,
    packageJsonDependencies_of sample_store "/project" = Ok m /\
    m !! "lodash" = Some (Str "^4.0.0").
Proof.
  destruct (devDependencies_override sample_store "/project" _ Logic.eq_refl)
    as (m & Hm & _ & H).
  exists m. split; [exact Hm|].
  assert ("lodash" <> "__proto__") as Hk by discriminate.
  rewrite (H "lodash" Hk). vm_compute. reflexivity.
Defined.

Lemma store_last_entry_wins_witness :
  exists m : gmap string value,
    nodeModules_of sample_store "/project" = Ok m /\
    m !! "lodash" = Some (Str "4.17.21").
Proof.
  assert ("lodash" <> "__proto__") as Hk by discriminate.
  refine (store_last_entry_wins sample_store "/project"
            "/project/node_modules/lodash-es"
            ["/project/node_modules/lodash"] []
            {| name := Some "lodash"; version := Some "4.17.21";
               dependencies := None; devDependencies := None |}
            Logic.eq_refl _ Logic.eq_refl Hk _).
  - intros q [<- | []]. discriminate.
  - intros q pj' [].
Defined.

Lemma raises_iff_null_json_witness :
  semver_contract SemverRef.api /\
  getPackageJson null_files "/project" = JNull /\
  exists e, warnForPackageDependencies SemverRef.api null_files [lodash]
              "/project" = Throw e.
Proof.
  split; [exact ref_contract|]. split; [reflexivity|].
  destruct (raises_iff_null_json SemverRef.api ref_contract null_files
              [lodash] "/project") as [[_ H] _].
  apply H. left. reflexivity.
Defined.

Lemma component_without_dependencies_witness :
  reconcile SemverRef.api
    ([lodash] ++ {| id := "utils/noop"; packageDependencies := Some [] |}
       :: [lodash]) ∅ ∅
  = reconcile SemverRef.api ([lodash] ++ [lodash]) ∅ ∅.
Proof.
  exact (component_without_dependencies SemverRef.api ∅ ∅ [lodash] [lodash]
           {| id := "utils/noop"; packageDependencies := Some [] |}
           (or_intror Logic.eq_refl)).
Defined.

Lemma reconcile_app_witness :
  exists w1 w2 : Warnings,
    reconcile SemverRef.api [lodash] ∅ ∅ = Ok w1 /\
    reconcile SemverRef.api [lodash] ∅ ∅ = Ok w2 /\
    reconcile SemverRef.api ([lodash] ++ [lodash]) ∅ ∅
    = Ok (append_warnings w1 w2).
Proof.
  exact (reconcile_app SemverRef.api ∅ ∅ ref_contract [lodash] [lodash]).
Defined.

Lemma number_of_warnings_witness :
  exists w : Warnings,
    reconcile SemverRef.api [lodash; lodash] ∅ {[ "lodash" := Str "4.17.21" ]}
    = Ok w /\
    entries w = 2%nat.
Proof.
  destruct (number_of_warnings SemverRef.api ∅ {[ "lodash" := Str "4.17.21" ]}
              ref_contract [lodash; lodash]) as (w & Hw & Hn).
  exists w. split; [exact Hw|]. rewrite Hn. vm_compute. reflexivity.
Defined.

Lemma no_warning_iff_all_compatible_witness :
  reconcile SemverRef.api [lodash]
    {[ "lodash" := Str "^4.5.0" ]} {[ "lodash" := Str "4.17.21" ]}
  = Ok no_warnings.
Proof.
  apply (no_warning_iff_all_compatible SemverRef.api _ _ ref_contract).
  intros n v [[= <- <-] | []]. split; vm_compute; reflexivity.
Defined.

Lemma bitJson_untouched_without_save_witness :
  flag_truthy (save (sample_args None None (Some true))) = false /\
  exists calls,
    snd (importAction SemverRef.api sample_platform
           (sample_args None None (Some true)) [])
    = [] ++ calls /\
    forallb (fun ev => negb (touches_bitJson ev)) calls = true.
Proof.
  split; [reflexivity|].
  exact (bitJson_untouched_without_save string SemverRef.api sample_platform
           (sample_args None None (Some true)) [] Logic.eq_refl).
Defined.

Lemma environment_path_witness :
  importAction SemverRef.api sample_platform
    (sample_args (Some true) (Some true) (Some true)) []
  = (Ok (EnvImported [{| id := "envs/babel"; packageDependencies := None |}]),
     [EnsureConsumer "/project"; EnsureScopeDir;
      LoaderStart "importing environment";
      ImportEnvironment "utils/pad" None;
      SetCompilerId "envs/babel"; WriteBitJson "/project"]).
Proof.
  destruct (environment_path string SemverRef.api sample_platform
              (sample_args (Some true) (Some true) (Some true)) []
              sample_consumer
              [{| id := "envs/babel"; packageDependencies := None |}]
              Logic.eq_refl Logic.eq_refl Logic.eq_refl Logic.eq_refl)
    as (_ & _ & H).
  exact (H Logic.eq_refl _ _ Logic.eq_refl).
Defined.

Lemma component_path_result_witness :
  exists (c : Consumer string) (deps envs : list Component) (w : Warnings),
    Consumer_ensure sample_platform []
      (performOnDir sample_platform (sample_args None None None)) = Ok c /\
    consumer_import c
      ([] ++ [EnsureConsumer
                (performOnDir sample_platform (sample_args None None None));
              EnsureScopeDir])
      "utils/pad" None None = Ok (deps, envs) /\
    warnForPackageDependencies SemverRef.api
      (files sample_platform
         (snd (importAction SemverRef.api sample_platform
                 (sample_args None None None) [])))
      deps (getPath c) = Ok w /\
    ComponentsImported [lodash] []
      {| notInPackageJson := []; notInNodeModules := [];
         notInBoth := [packageDep "lodash" "^4.1.0"] |}
    = ComponentsImported deps envs w.
Proof.
  assert (fst (importAction SemverRef.api sample_platform
                 (sample_args None None None) [])
          = Ok (ComponentsImported [lodash] []
                  {| notInPackageJson := []; notInNodeModules := [];
                     notInBoth := [packageDep "lodash" "^4.1.0"] |})) as H
    by (vm_compute; reflexivity).
  exact (component_path_result string SemverRef.api sample_platform
           (sample_args None None None) [] _ Logic.eq_refl H).
Defined.

Lemma component_path_save_witness :
  snd (importAction SemverRef.api sample_platform
         (sample_args (Some true) None None) [])
  = [EnsureConsumer "/project"; EnsureScopeDir;
     ImportComponents "utils/pad" None None;
     AddDependency "local/utils/pad"; WriteBitJson "/project"].
Proof.
  destruct (component_path_save string SemverRef.api sample_platform
              (sample_args (Some true) None None) [] sample_consumer
              [lodash] [] Logic.eq_refl Logic.eq_refl Logic.eq_refl
              Logic.eq_refl Logic.eq_refl) as [_ H].
  rewrite (H "local/utils/pad" Logic.eq_refl Logic.eq_refl Logic.eq_refl).
  reflexivity.
Defined.

Lemma consumer_is_ensured_first_witness :
  exists rest,
    snd (importAction SemverRef.api sample_platform
           {| bitId := "utils/pad"; save := None; tester := None;
              compiler := None; verbose := None; prefix := Some "app";
              environment := None |} [])
    = [] ++ EnsureConsumer "/project/app" :: rest.
Proof.
  destruct (consumer_is_ensured_first string SemverRef.api sample_platform
              {| bitId := "utils/pad"; save := None; tester := None;
                 compiler := None; verbose := None; prefix := Some "app";
                 environment := None |} []) as (_ & H & _).
  exact H.
Defined.

Lemma failed_import_stops_witness :
  importAction SemverRef.api offline_platform
    (sample_args (Some true) None None) []
  = (Throw (Error "ECONNREFUSED"),
     [EnsureConsumer "/project"; EnsureScopeDir;
      ImportComponents "utils/pad" None None]).
Proof.
  destruct (failed_import_stops string SemverRef.api offline_platform
              (sample_args (Some true) None None) [] offline_consumer
              Logic.eq_refl Logic.eq_refl) as [H _].
  exact (H (Error "ECONNREFUSED") Logic.eq_refl Logic.eq_refl).
Defined.
